(** * jack-henry-project: the weather server and its lifecycle controller

    A shallow embedding of the Go packages [weatherserver]
    (weatherserver/weatherserver.go) and [main] (main.go, signals.go),
    with the properties of the request pipeline stated and proved over it.

    Conventions of the embedding:
    - a Go [string] is a Rocq [string] (a sequence of bytes), [len] is
      [String.length];
    - a Go [float64] is an IEEE 754 binary64 datum, here the Standard
      Library's [spec_float] with precision 53 and exponent bound 1024;
    - a Go [error] is [option string]: [None] is [nil], [Some msg] is an
      error whose [Error()] text is [msg];
    - a Go [map] is a stdpp [gmap];
    - functions with several results return a tuple, and named results
      that were not assigned hold their zero value, as in Go. *)

From Stdlib Require Import ZArith Bool String Ascii List Lia.
From Stdlib Require Import SpecFloat DecimalString DecimalZ DecimalPos.
From stdpp Require Import base option gmap strings list.

Local Open Scope string_scope.
Local Open Scope Z_scope.

(** ** float64 *)

Module Float64.

Definition prec : Z := 53.
Definition emax : Z := 1024.

(** The carrier; [is_float64] singles out the data that are binary64
    values (canonical mantissa, exponent in range). *)
Definition float64 : Type := spec_float.

Definition is_float64 (x : float64) : bool := valid_binary prec emax x.

(** Go's comparison operators on float64 (IEEE 754: every ordered
    comparison with a NaN operand is false). *)
Definition lt (x y : float64) : bool := SFltb x y.
Definition le (x y : float64) : bool := SFleb x y.
Definition ge (x y : float64) : bool := SFleb y x.

Definition is_nan (x : float64) : bool :=
  match x with S754_nan => true | _ => false end.

Definition is_finite (x : float64) : bool :=
  match x with
  | S754_zero _ | S754_finite _ _ _ => true
  | _ => false
  end.

(** Conversion of an integer constant, and of a decimal constant
    [n / d], to the nearest float64 (ties to even), which is what the Go
    compiler does with an untyped numeric constant. *)
Definition of_Z (z : Z) : float64 := binary_normalize prec emax z 0 false.
Definition of_ratio (n d : Z) : float64 := SFdiv prec emax (of_Z n) (of_Z d).

Definition zero : float64 := S754_zero false.

(** The exact value of a float64 scaled by 2^1074, an integer for every
    finite binary64 datum (the least exponent is -1074). *)
Definition scaled (x : float64) : Z :=
  match x with
  | S754_finite s m e =>
      let v := Z.pos m * 2 ^ (e + 1074) in if s then - v else v
  | _ => 0
  end.

End Float64.

Export Float64.

Infix "<?f" := lt (at level 70, no associativity) : Z_scope.
Infix "<=?f" := le (at level 70, no associativity) : Z_scope.
Infix ">=?f" := ge (at level 70, no associativity) : Z_scope.


(** ** The Go runtime and standard library, as far as the program uses them *)

Module Go.

(** [error]: [None] is nil. *)
Definition error : Type := option string.

(** The error kept when several are met: the first one. *)
Definition first_error (e1 e2 : error) : error :=
  match e1 with
  | Some _ => e1
  | None => e2
  end.

(** [strconv.Itoa]: the decimal text of an int. *)
Definition Itoa (i : Z) : string := NilZero.string_of_int (Z.to_int i).

(** The integer a decimal text denotes, if it is one. *)
Definition decimal (s : string) : option Z :=
  option_map Z.of_int (NilZero.int_of_string s).

(** The double quote character, for [%q], and the line feed. *)
Definition dquote : string := String "034"%char EmptyString.
Definition newline : string := String "010"%char EmptyString.

(** *** The outcome of running Go code: it returns, or it panics. *)

Inductive outcome (A : Type) : Type :=
| Returned (a : A)
| Panicked (msg : string).

Arguments Returned {A} a.
Arguments Panicked {A} msg.

(** *** package context

    A context is known by its identity (contexts are compared by
    identity, as the pointers they are in Go) and carries the absolute
    deadline it will be cancelled at, in nanoseconds of the world clock,
    if it has one. *)
Record Context : Type := {
  ctx_id : nat;
  ctx_deadline : option Z;
}.

Definition Second : Z := 1000000000.

(** *** package net/http, client side

    A request handed to [client.Do]: the fields of [*http.Request] that
    [http.NewRequestWithContext] and [Header.Set] fill. *)
Record http_ClientRequest : Type := {
  creq_ctx : Context;
  creq_Method : string;
  creq_URL : string;
  creq_Header : gmap string (list string);
}.

(** The bytes of a response body, kept as what encoding/json's scanner
    makes of them: a syntax error, or the JSON value they spell. A number
    keeps its literal, as encoding/json converts it only once the type of
    the destination is known. *)
#[local] Unset Elimination Schemes.
Inductive json : Type :=
| JNull
| JBool (b : bool)
| JNumber (literal : string)
| JString (s : string)
| JArray (elems : list json)
| JObject (members : list (string * json)).
#[local] Set Elimination Schemes.

Inductive bytes : Type :=
| Malformed (syntaxError : string)
| Spells (value : json).

(** [response.Body]: what [io.ReadAll] will deliver, data and error. *)
Record io_ReadCloser : Type := {
  body_data : bytes;
  body_err : error;
}.

Record http_Response : Type := {
  StatusCode : Z;
  Body : io_ReadCloser;
}.

(** The world a request handler runs in: the clock, the number of
    contexts derived so far, and the requests sent upstream so far, oldest
    first. *)
Record World : Type := {
  now : Z;
  ctxs : nat;
  sent : list http_ClientRequest;
}.

(** An [*http.Client] is known by what a round trip through it gives for
    a request in a world: the time the exchange takes until the response
    has arrived, and the response or the transport error. Tests inject a
    stand-in upstream as such a client. *)
Record http_Exchange : Type := {
  elapsed : N;
  reply : http_Response * error;
}.

Record http_Client : Type := {
  RoundTrip : World -> http_ClientRequest -> http_Exchange;
}.

(** Code that runs in the world. *)
Definition M (A : Type) : Type := World -> outcome A * World.

Definition ret {A} (a : A) : M A := fun w => (Returned a, w).

Definition bind {A B} (m : M A) (k : A -> M B) : M B :=
  fun w =>
    match m w with
    | (Returned a, w') => k a w'
    | (Panicked msg, w') => (Panicked msg, w')
    end.

Definition panic {A} (msg : string) : M A := fun w => (Panicked msg, w).

Declare Scope go_scope.
Delimit Scope go_scope with go.
Notation "x <- c1 ;; c2" := (bind c1 (fun x => c2))
  (at level 100, c1 at next level, right associativity) : go_scope.

(** [s[i]] on a slice: a run-time panic when [i] is out of range. *)
Definition index {A} (s : list A) (i : nat) : M A :=
  match s !! i with
  | Some x => ret x
  | None =>
      panic ("runtime error: index out of range [" +:+ Itoa (Z.of_nat i)
             +:+ "] with length " +:+ Itoa (Z.of_nat (length s)))
  end.

(** [context.WithTimeout(parent, timeout)]: a new context, whose deadline
    is [timeout] from now unless the parent's comes earlier. The cancel
    function it also returns only releases the timer. *)
Definition context_WithTimeout (parent : Context) (timeout : Z) : M Context :=
  fun w =>
    let d := now w + timeout in
    let deadline :=
      match ctx_deadline parent with
      | Some cur => if cur <? d then cur else d
      | None => d
      end in
    (Returned {| ctx_id := ctxs w; ctx_deadline := Some deadline |},
     {| now := now w; ctxs := S (ctxs w); sent := sent w |}).

(** [http.Header] and [url.Values], both [map[string][]string]. [Get] is
    the first value of the key, or the empty string. (Header keys are
    canonicalised by [Get], [Set] and [Del]; every key the program uses is
    in canonical form already.) *)
Definition Header_Get (h : gmap string (list string)) (key : string) : string :=
  match h !! key with
  | Some (v :: _) => v
  | _ => EmptyString
  end.

Definition Header_Set (h : gmap string (list string)) (key value : string)
  : gmap string (list string) :=
  <[key := [value]]> h.

Definition Header_Del (h : gmap string (list string)) (key : string)
  : gmap string (list string) :=
  delete key h.

Definition Values_Get (v : gmap string (list string)) (key : string) : string :=
  match v !! key with
  | Some (x :: _) => x
  | _ => EmptyString
  end.

Definition MethodGet : string := "GET".
Definition StatusOK : Z := 200.
Definition StatusBadRequest : Z := 400.
Definition StatusNotFound : Z := 404.
Definition StatusMethodNotAllowed : Z := 405.
Definition StatusNotAcceptable : Z := 406.
Definition StatusInternalServerError : Z := 500.

(** [client.Do(request)]: the request is sent; if the exchange would not
    be over before the deadline of the request's context, the call is
    aborted at the deadline with the context's error, otherwise it takes
    its time and gives the client's reply. *)
Definition zero_Response : http_Response :=
  {| StatusCode := 0;
     Body := {| body_data := Malformed "unexpected end of JSON input"; body_err := None |} |}.

Definition deadline_exceeded (request : http_ClientRequest) : string :=
  "Get " +:+ dquote +:+ creq_URL request +:+ dquote +:+ ": context deadline exceeded".

Definition client_Do (client : http_Client) (request : http_ClientRequest)
  : M (http_Response * error) :=
  fun w =>
    let x := RoundTrip client w request in
    let finish := now w + Z.of_N (elapsed x) in
    let log := (sent w ++ [request])%list in
    match ctx_deadline (creq_ctx request) with
    | Some d =>
        if d <=? finish
        then (Returned (zero_Response, Some (deadline_exceeded request)),
              {| now := Z.max (now w) d; ctxs := ctxs w; sent := log |})
        else (Returned (reply x), {| now := finish; ctxs := ctxs w; sent := log |})
    | None =>
        (Returned (reply x), {| now := finish; ctxs := ctxs w; sent := log |})
    end.

Definition io_ReadAll (body : io_ReadCloser) : bytes * error :=
  (body_data body, body_err body).

(** *** package net/http, server side

    The request a handler receives: the fields of [*http.Request] that
    the handler reads. [Query] is [URL.Query()], the parsed query
    string. *)
Record url_URL : Type := {
  Path : string;
  Query : gmap string (list string);
}.

Record http_Request : Type := {
  Method : string;
  URL : url_URL;
  Header : gmap string (list string);
  Ctx : Context;
}.

(** The [http.ResponseWriter] of the server: the header map, the status
    once it is written, and the body written so far. *)
Record http_ResponseWriter : Type := {
  rw_Header : gmap string (list string);
  rw_Status : option Z;
  rw_Body : string;
}.

Definition newResponseWriter : http_ResponseWriter :=
  {| rw_Header := ∅; rw_Status := None; rw_Body := EmptyString |}.

Definition set_Header (w : http_ResponseWriter) (key value : string)
  : http_ResponseWriter :=
  {| rw_Header := Header_Set (rw_Header w) key value;
     rw_Status := rw_Status w; rw_Body := rw_Body w |}.

(** [w.WriteHeader(code)]: only the first call counts. *)
Definition WriteHeader (w : http_ResponseWriter) (code : Z) : http_ResponseWriter :=
  match rw_Status w with
  | Some _ => w
  | None => {| rw_Header := rw_Header w; rw_Status := Some code; rw_Body := rw_Body w |}
  end.

(** [w.Write(data)]: writes the status 200 first if none was written. *)
Definition Write (w : http_ResponseWriter) (data : string) : http_ResponseWriter :=
  let w := WriteHeader w StatusOK in
  {| rw_Header := rw_Header w; rw_Status := rw_Status w; rw_Body := rw_Body w +:+ data |}.

(** [http.Error(w, error, code)]. *)
Definition http_Error (w : http_ResponseWriter) (error : string) (code : Z)
  : http_ResponseWriter :=
  let h := rw_Header w in
  let h := Header_Del h "Content-Length" in
  let h := Header_Set h "Content-Type" "text/plain; charset=utf-8" in
  let h := Header_Set h "X-Content-Type-Options" "nosniff" in
  let w := {| rw_Header := h; rw_Status := rw_Status w; rw_Body := rw_Body w |} in
  let w := WriteHeader w code in
  Write w (error +:+ newline).

(** *** package encoding/json: storing a JSON value into a Go value

    [Unmarshal] first checks the syntax of the whole input, then stores
    the value into the target according to the target's type. A type
    mismatch is remembered (the first one is returned at the end) and
    decoding goes on; [null] leaves a string, number, struct or slice as
    it is. The texts of the errors are indicative. *)
Definition kind (j : json) : string :=
  match j with
  | JNull => "null"
  | JBool _ => "bool"
  | JNumber _ => "number"
  | JString _ => "string"
  | JArray _ => "array"
  | JObject _ => "object"
  end.

Definition UnmarshalTypeError (value goType : string) : string :=
  "json: cannot unmarshal " +:+ value +:+ " into Go value of type " +:+ goType.

Class Unmarshaler (T : Type) : Type :=
  unmarshal : json -> T -> T * error.

Definition json_Unmarshal {T} `{Unmarshaler T} (data : bytes) (target : T) : T * error :=
  match data with
  | Malformed e => (target, Some e)
  | Spells v => unmarshal v target
  end.

Definition unmarshal_string (j : json) (old : string) : string * error :=
  match j with
  | JString s => (s, None)
  | JNull => (old, None)
  | _ => (old, Some (UnmarshalTypeError (kind j) "string"))
  end.

Definition unmarshal_float64 (ParseFloat : string -> float64 * error)
  (j : json) (old : float64) : float64 * error :=
  match j with
  | JNumber literal =>
      match ParseFloat literal with
      | (f, None) => (f, None)
      | (_, Some _) => (old, Some (UnmarshalTypeError ("number " +:+ literal) "float64"))
      end
  | JNull => (old, None)
  | _ => (old, Some (UnmarshalTypeError (kind j) "float64"))
  end.

(** A struct: the members of the object are stored one after the other,
    each into the field its key names; [field key value t] stores one. *)
Definition unmarshal_struct {T} (goType : string)
  (field : string -> json -> T -> T * error) (j : json) (old : T) : T * error :=
  match j with
  | JObject members =>
      fold_left
        (fun acc member =>
           let r := field (fst member) (snd member) (fst acc) in
           (fst r, first_error (snd acc) (snd r)))
        members (old, None)
  | JNull => (old, None)
  | _ => (old, Some (UnmarshalTypeError (kind j) goType))
  end.

(** A slice: the length is reset to zero and each element of the array
    is stored into a fresh element appended to it. *)
Definition unmarshal_slice {T} (goType : string) (zero : T)
  (elem : json -> T -> T * error) (j : json) (old : list T) : list T * error :=
  match j with
  | JArray elems =>
      fold_left
        (fun acc e =>
           let r := elem e zero in
           ((fst acc ++ [fst r])%list, first_error (snd acc) (snd r)))
        elems ([], None)
  | JNull => (old, None)
  | _ => (old, Some (UnmarshalTypeError (kind j) goType))
  end.

(** A key names a field when it is the field's name, exactly or up to the
    case of its (ASCII) letters. *)
Definition lower (c : ascii) : ascii :=
  let n := nat_of_ascii c in
  if ((65 <=? n) && (n <=? 90))%nat then ascii_of_nat (n + 32) else c.

Fixpoint ToLower (s : string) : string :=
  match s with
  | EmptyString => EmptyString
  | String c s' => String (lower c) (ToLower s')
  end.

Definition names (key name : string) : bool :=
  String.eqb key name || String.eqb (ToLower key) (ToLower name).

End Go.

Export Go.

(** ** package weatherserver (weatherserver/weatherserver.go) *)

Module Weatherserver.

Record Server : Type := {
  Client : http_Client;
}.

Definition acceptedTypes : gmap string unit :=
  <["*/*" := tt]> (<["text/*" := tt]> (<["text/plain" := tt]> ∅)).

Definition c40 : float64 := Eval vm_compute in of_Z 40.
Definition c80 : float64 := Eval vm_compute in of_Z 80.

Definition tempratureAnalog (t : float64) : string :=
  if t <?f c40 then "cold"
  else if t <?f c80 then "moderate"
  else "hot".

(** The payload types local to [forcastGrid] and [forecastGet] (both are
    called [returnPayload] in the source). *)
Record forcastGrid_returnPayload : Type := {
  ForecastEndpoint : string;
}.

Record period : Type := {
  Temperature : float64;
  ShortForecast : string;
}.

Record forecastGet_returnPayload : Type := {
  Periods : list period;
}.

Section Package.

(** What the package takes from the Go library without looking inside:
    [strconv.ParseFloat(s, 64)] (its value and its error), the text
    [fmt.Sprintf] gives for a float64 under the verb [%f], and the error
    of [url.Parse], if any. *)
Variable ParseFloat : string -> float64 * error.
Variable FormatF : float64 -> string.
Variable url_Parse : string -> error.

#[local] Instance unmarshal_forcastGrid_returnPayload
  : Unmarshaler forcastGrid_returnPayload :=
  unmarshal_struct "weatherserver.returnPayload"
    (fun key value p =>
       if names key "forecast" then
         let r := unmarshal_string value (ForecastEndpoint p) in
         ({| ForecastEndpoint := fst r |}, snd r)
       else (p, None)).

#[local] Instance unmarshal_period : Unmarshaler period :=
  unmarshal_struct "struct"
    (fun key value p =>
       if names key "temperature" then
         let r := unmarshal_float64 ParseFloat value (Temperature p) in
         ({| Temperature := fst r; ShortForecast := ShortForecast p |}, snd r)
       else if names key "shortForecast" then
         let r := unmarshal_string value (ShortForecast p) in
         ({| Temperature := Temperature p; ShortForecast := fst r |}, snd r)
       else (p, None)).

#[local] Instance unmarshal_forecastGet_returnPayload
  : Unmarshaler forecastGet_returnPayload :=
  unmarshal_struct "weatherserver.returnPayload"
    (fun key value p =>
       if names key "periods" then
         let r := unmarshal_slice "[]struct"
                    {| Temperature := zero; ShortForecast := EmptyString |}
                    unmarshal value (Periods p) in
         ({| Periods := fst r |}, snd r)
       else (p, None)).

(** [http.NewRequestWithContext(ctx, method, url, nil)]. *)
Definition http_NewRequestWithContext (ctx : Context) (method url : string)
  : http_ClientRequest * error :=
  match url_Parse url with
  | Some e =>
      ({| creq_ctx := ctx; creq_Method := EmptyString; creq_URL := EmptyString;
          creq_Header := ∅ |},
       Some ("parse " +:+ dquote +:+ url +:+ dquote +:+ ": " +:+ e))
  | None =>
      ({| creq_ctx := ctx; creq_Method := method; creq_URL := url;
          creq_Header := ∅ |}, None)
  end.

Definition request_Header_Set (request : http_ClientRequest) (key value : string)
  : http_ClientRequest :=
  {| creq_ctx := creq_ctx request; creq_Method := creq_Method request;
     creq_URL := creq_URL request;
     creq_Header := Header_Set (creq_Header request) key value |}.

Local Open Scope go_scope.

Definition httpGet {T} `{Unmarshaler T}
  (ctx : Context) (client : http_Client) (url : string) (target : T)
  : M (T * error) :=
  let (request, err) := http_NewRequestWithContext ctx MethodGet url in
  match err with
  | Some _ => ret (target, err)
  | None =>
      let request := request_Header_Set request "Accept" "application/ld+json" in
      r <- client_Do client request ;;
      let (response, err) := r : http_Response * error in
      match err with
      | Some _ => ret (target, err)
      | None =>
          (* defer response.Body.Close() *)
          if negb (StatusCode response =? StatusOK)
          then ret (target,
                    Some ("unexpected status code: " +:+ Itoa (StatusCode response)))
          else
            let (body, err) := io_ReadAll (Body response) in
            match err with
            | Some e => ret (target, Some ("failed to read body: " +:+ e))
            | None =>
                let (target, err) := json_Unmarshal body target in
                match err with
                | Some e => ret (target, Some ("failed to unmarshal body: " +:+ e))
                | None => ret (target, None)
                end
            end
      end
  end.

Definition validRequest (writer : http_ResponseWriter) (request : http_Request)
  : http_ResponseWriter * (float64 * float64 * bool) :=
  if negb (String.eqb (Method request) MethodGet) then
    (http_Error writer "only GET allowed" StatusMethodNotAllowed,
     (zero, zero, false))
  else if negb (String.eqb (Path (URL request)) "/weather") then
    (http_Error writer "only /weather allowed" StatusNotFound,
     (zero, zero, false))
  else
    let accept := Header_Get (Header request) "Accept" in
    match acceptedTypes !! accept with
    | None =>
        (http_Error writer "must accept text/plain" StatusNotAcceptable,
         (zero, zero, false))
    | Some _ =>
        let latitudeString := Values_Get (Query (URL request)) "lat" in
        let longitudeString := Values_Get (Query (URL request)) "lon" in
        if String.eqb latitudeString EmptyString
           || String.eqb longitudeString EmptyString
        then
          (http_Error writer "query params 'lat' and 'lon' are required"
             StatusBadRequest,
           (zero, zero, false))
        else
          let (latitude, err) := ParseFloat latitudeString in
          match err with
          | Some e =>
              (http_Error writer ("invalid 'lat' query param: " +:+ e)
                 StatusBadRequest,
               (latitude, zero, false))
          | None =>
              let (longitude, err) := ParseFloat longitudeString in
              match err with
              | Some e =>
                  (http_Error writer ("invalid 'lon' query param: " +:+ e)
                     StatusBadRequest,
                   (latitude, longitude, false))
              | None => (writer, (latitude, longitude, true))
              end
          end
    end.

Definition forcastGrid (ctx : Context) (client : http_Client) (lat lon : float64)
  : M (string * error) :=
  let api := fun lat lon : float64 =>
    "https://api.weather.gov/points/" +:+ FormatF lat +:+ "," +:+ FormatF lon in
  let payload := {| ForecastEndpoint := EmptyString |} in
  r <- httpGet ctx client (api lat lon) payload ;;
  let (payload, err) := r : forcastGrid_returnPayload * error in
  match err with
  | Some _ => ret (EmptyString, err)
  | None => ret (ForecastEndpoint payload, None)
  end.

Definition forecastGet (ctx : Context) (client : http_Client) (endpoint : string)
  : M (string * string * error) :=
  let payload := {| Periods := [] |} in
  r <- httpGet ctx client endpoint payload ;;
  let (payload, err) := r : forecastGet_returnPayload * error in
  match err with
  | Some _ => ret (EmptyString, EmptyString, err)
  | None =>
      if (length (Periods payload) =? 0)%nat
      then ret (EmptyString, EmptyString, Some "no periods found")
      else
        p <- index (Periods payload) 0 ;;
        let forecast := ShortForecast p in
        p <- index (Periods payload) 0 ;;
        let temprature := tempratureAnalog (Temperature p) in
        ret (forecast, temprature, None)
  end.

Definition ServeHTTP (s : Server) (writer : http_ResponseWriter)
  (request : http_Request) : M http_ResponseWriter :=
  (* set a timeout for the request as a whole. *)
  let ctx := Ctx request in
  ctx <- context_WithTimeout ctx (2 * Second) ;;
  (* defer cancel() *)
  let '(writer, (lat, lon, valid)) := validRequest writer request in
  if negb valid then ret writer
  else
    r <- forcastGrid ctx (Client s) lat lon ;;
    let (forecastEndpoint, err) := r : string * error in
    match err with
    | Some e =>
        ret (http_Error writer ("failed to fetch weather.gov points: " +:+ e)
               StatusInternalServerError)
    | None =>
        r <- forecastGet ctx (Client s) forecastEndpoint ;;
        let '(weather, temprature, err) := r : string * string * error in
        match err with
        | Some e =>
            ret (http_Error writer
                   ("failed to fetch weather.gov forecast/temprature: " +:+ e)
                   StatusInternalServerError)
        | None =>
            let response := weather +:+ ", " +:+ temprature +:+ newline in
            let writer := set_Header writer "Content-Type" "text/plain" in
            let writer :=
              set_Header writer "Content-Length"
                (Itoa (Z.of_nat (String.length response))) in
            ret (Write writer response)
        end
    end.

(** What net/http's server does with a request: the handler is called
    with a fresh response writer. *)
Definition serve (s : Server) (request : http_Request) : M http_ResponseWriter :=
  ServeHTTP s newResponseWriter request.

End Package.

(** The world once the handler has derived its context. *)
Definition derived (w : World) : World :=
  {| now := now w; ctxs := S (ctxs w); sent := sent w |}.

(** [upstream_calls ctx n w w']: from the world [w] to the world [w'],
    at most [n] requests were sent upstream, each of them under the
    context [ctx]; no context was derived; and the clock did not pass the
    deadline of [ctx], unless it had passed it before. *)
Definition upstream_calls (ctx : Context) (n : nat) (w w' : World) : Prop :=
  exists calls : list http_ClientRequest,
    sent w' = (sent w ++ calls)%list /\
    (length calls <= n)%nat /\
    Forall (fun c => creq_ctx c = ctx) calls /\
    ctxs w' = ctxs w /\
    now w <= now w' /\
    forall d, ctx_deadline ctx = Some d -> now w' <= Z.max (now w) d.

(** The request [httpGet] hands to the client for a URL: a GET of that
    URL under the caller's context, with the one header it sets. *)
Definition get_request (ctx : Context) (url : string) : http_ClientRequest :=
  {| creq_ctx := ctx; creq_Method := MethodGet; creq_URL := url;
     creq_Header := {[ "Accept" := ["application/ld+json"] ]} |}.

End Weatherserver.

(** ** package main: the lifecycle controller (main.go) *)

Module Main.

(** The package-level variables [listener] and [listnerMutext]. A
    [net.Listener] is known by its handle, [None] is nil; the mutex is
    known by whether it is held; [closed] lists the listeners that were
    closed. *)
Record Globals : Type := {
  listener : option nat;
  listnerMutext : bool;
  closed : list nat;
}.

(** A call run on its own, no other goroutine taking a step meanwhile: it
    returns, or it stays blocked for ever in [Lock], or the runtime stops
    the program with a fatal error. *)
Inductive run (A : Type) : Type :=
| Done (a : A) (g : Globals)
| Blocked (g : Globals)
| Fatal (msg : string) (g : Globals).

Arguments Done {A} a g.
Arguments Blocked {A} g.
Arguments Fatal {A} msg g.

Definition then_ {A B} (r : run A) (k : A -> Globals -> run B) : run B :=
  match r with
  | Done a g => k a g
  | Blocked g => Blocked g
  | Fatal msg g => Fatal msg g
  end.

(** [sync.Mutex]. *)
Definition Lock (g : Globals) : run unit :=
  if listnerMutext g then Blocked g
  else Done tt {| listener := listener g; listnerMutext := true; closed := closed g |}.

Definition Unlock (g : Globals) : run unit :=
  if listnerMutext g
  then Done tt {| listener := listener g; listnerMutext := false; closed := closed g |}
  else Fatal "fatal error: sync: unlock of unlocked mutex" g.

Definition Close (l : nat) (g : Globals) : Globals :=
  {| listener := listener g; listnerMutext := listnerMutext g;
     closed := (closed g ++ [l])%list |}.

Definition set_listener (l : option nat) (g : Globals) : Globals :=
  {| listener := l; listnerMutext := listnerMutext g; closed := closed g |}.

(** [stopServer]. *)
Definition stopServer (g : Globals) : run unit :=
  then_ (Lock g) (fun _ g =>
    match listener g with
    | None => Done tt g
    | Some l =>
        let g := Close l g in
        let g := set_listener None g in
        Unlock g
    end).

(** [startServer], up to the call of [httpServer.Serve], which blocks
    until the listener is closed. [net_Listen] is what
    [net.Listen("tcp", bindAddress)] gives: a listener or an error. The
    result is the error returned before serving, or [None] when the call
    has reached [Serve]; what the call does once [Serve] returns is
    [startServer_return] below. *)
Definition startServer (net_Listen : nat + string) (g : Globals) : run error :=
  then_ (Lock g) (fun _ g =>
    match listener g with
    | Some _ =>
        then_ (Unlock g) (fun _ g => Done (Some "server already started") g)
    | None =>
        match net_Listen with
        | inr err => Done (Some err) (set_listener None g)
        | inl l =>
            let g := set_listener (Some l) g in
            then_ (Unlock g) (fun _ g => Done None g)
        end
    end).

(** The rest of [startServer], run when [httpServer.Serve] returns with
    the error [err]; [isErrClosed] tells whether
    [errors.Is(err, net.ErrClosed)], in which case the error is dropped.
    The deferred function runs last, at the return, and reads the package
    variable [listener] again, outside the mutex: when that is nil,
    [listener.Close()] is a call on a nil interface, a run-time panic. *)
Definition startServer_return (err : string) (isErrClosed : bool) (g : Globals)
  : outcome error * Globals :=
  let err := if isErrClosed then None else Some err in
  match listener g with
  | Some l => (Returned err, Close l g)
  | None =>
      (Panicked "runtime error: invalid memory address or nil pointer dereference",
       g)
  end.

(** The state of the package when the program starts. *)
Definition initial : Globals :=
  {| listener := None; listnerMutext := false; closed := [] |}.

(** *** signals.go

    A signal is a [syscall.Signal], a number; the five the program names
    have their Linux numbers. *)
Definition Signal : Type := Z.

Definition SIGHUP : Signal := 1.
Definition SIGINT : Signal := 2.
Definition SIGQUIT : Signal := 3.
Definition SIGKILL : Signal := 9.
Definition SIGTERM : Signal := 15.

(** What a run of [signals] comes to: it waits in [<-sigchan] with the
    channel empty, having printed nothing and called nothing; or it has
    taken a signal that ends it, printed its line, and called
    [stopServer], whose run is the rest of its own. *)
Inductive signals_outcome : Type :=
| Waiting (g : Globals)
| Handled (stdout : string) (sigchan : list Signal) (r : run unit).

(** [signals], run on the signals that arrive on [sigchan], oldest
    first. [name] is [Signal.String]. The line is what [fmt.Println]
    prints for the two operands, a space between them. *)
Fixpoint signals (name : Signal -> string) (sigchan : list Signal) (g : Globals)
  : signals_outcome :=
  match sigchan with
  | [] => Waiting g
  | s :: sigchan =>
      if (s =? SIGTERM) || (s =? SIGINT) || (s =? SIGQUIT) || (s =? SIGHUP)
         || (s =? SIGKILL)
      then Handled ("got signal: " +:+ " " +:+ name s +:+ newline) sigchan
             (stopServer g)
      else signals name sigchan g
  end.

End Main.

(** ** Concrete requests, upstreams and library stand-ins

    The inputs the statements below are tried on. The three library
    stand-ins agree with the Go library on the strings and numbers that
    occur in these inputs. *)

Module Examples.

Import Weatherserver.

Definition KCLat : float64 := Eval vm_compute in of_ratio 390997 10000.
Definition KCLon : float64 := Eval vm_compute in of_ratio (-945786) 10000.
Definition KCWeatherEndpoint : string :=
  "https://api.weather.gov/gridpoints/EAX/44,51/forecast".
Definition KCPoints : string :=
  "https://api.weather.gov/points/39.099700,-94.578600".

Definition syntaxError (s : string) : string :=
  "strconv.ParseFloat: parsing " +:+ dquote +:+ s +:+ dquote +:+ ": invalid syntax".

Definition ParseFloat (s : string) : float64 * error :=
  if String.eqb s "39.0997" then (KCLat, None)
  else if String.eqb s "-94.5786" then (KCLon, None)
  else if String.eqb s "72" then (of_Z 72, None)
  else (zero, Some (syntaxError s)).

Definition FormatF (f : float64) : string :=
  if SFeqb f KCLat then "39.099700"
  else if SFeqb f KCLon then "-94.578600"
  else "0.000000".

Definition url_Parse (url : string) : error := None.

Definition background : Context := {| ctx_id := 0; ctx_deadline := None |}.

Definition world0 : World := {| now := 0; ctxs := 1; sent := [] |}.

Definition ok (v : json) : http_Response * error :=
  ({| StatusCode := 200; Body := {| body_data := Spells v; body_err := None |} |},
   None).

Definition points_reply : json :=
  JObject [("forecast", JString KCWeatherEndpoint)].

Definition sunny_reply : json :=
  JObject [("periods",
            JArray [JObject [("temperature", JNumber "72");
                             ("shortForecast", JString "Sunny")]])].

(** An upstream that answers each of the two calls after [ms]
    milliseconds, the second one with [forecast]. *)
Definition upstream (ms : N) (forecast : json) : http_Client :=
  {| RoundTrip := fun _ request =>
       {| elapsed := ms * 1000000;
          reply := if String.eqb (creq_URL request) KCPoints
                   then ok points_reply else ok forecast |} |}.

Definition sunny : Server := {| Client := upstream 100 sunny_reply |}.
Definition slow : Server := {| Client := upstream 1200 sunny_reply |}.
Definition no_periods : Server :=
  {| Client := upstream 100 (JObject [("periods", JArray [])]) |}.

(** An upstream whose points document has no "forecast" member. *)
Definition no_forecast : http_Client :=
  {| RoundTrip := fun _ _ => {| elapsed := 100000000; reply := ok (JObject []) |} |}.

Definition get (accept : option string) (query : list (string * string))
  : http_Request :=
  {| Method := "GET";
     URL := {| Path := "/weather";
               Query := list_to_map (prod_map id (fun v => [v]) <$> query) |};
     Header := match accept with
               | Some a => {[ "Accept" := [a] ]}
               | None => ∅
               end;
     Ctx := background |}.

Definition KC : list (string * string) := [("lat", "39.0997"); ("lon", "-94.5786")].

(** A request with another method, or for another path. *)
Definition request (method path : string) : http_Request :=
  {| Method := method;
     URL := {| Path := path; Query := ∅ |};
     Header := {[ "Accept" := ["*/*"] ]};
     Ctx := background |}.

(** An upstream that answers every request with the status [code] and an
    empty document, and one whose exchanges fail in the transport. *)
Definition status (code : Z) : http_Client :=
  {| RoundTrip := fun _ _ =>
       {| elapsed := 100000000;
          reply := ({| StatusCode := code;
                       Body := {| body_data := Spells (JObject []);
                                  body_err := None |} |}, None) |} |}.

Definition unreachable : http_Client :=
  {| RoundTrip := fun _ request =>
       {| elapsed := 100000000;
          reply := (zero_Response,
                    Some ("Get " +:+ dquote +:+ creq_URL request +:+ dquote
                          +:+ ": dial tcp: connection refused")) |} |}.

(** An upstream whose one period has no temperature. *)
Definition no_temperature : Server :=
  {| Client :=
       upstream 100
         (JObject [("periods",
                    JArray [JObject [("shortForecast", JString "Sunny")]])]) |}.

(** The names of the signals, as [Signal.String] gives them on Linux. *)
Definition signal_name (s : Z) : string :=
  if s =? 1 then "hangup"
  else if s =? 2 then "interrupt"
  else if s =? 3 then "quit"
  else if s =? 9 then "killed"
  else if s =? 15 then "terminated"
  else "signal " +:+ Itoa s.

End Examples.

(** * Properties *)

Import Weatherserver.

(** ** float64 comparisons *)

Section Comparisons.

(** Swapping the operands of a comparison mirrors its result. *)
Lemma SFcompare_swap (x y : float64) :
  SFcompare y x = option_map CompOpp (SFcompare x y).
Proof.
  destruct x as [sx|sx| |sx mx ex], y as [sy|sy| |sy my ey];
    try destruct sx; try destruct sy; try reflexivity.
  all: cbn [SFcompare option_map]; f_equal.
  all: rewrite (Z.compare_antisym ey ex).
  all: destruct (ey ?= ex); cbn [CompOpp]; try reflexivity.
  all: rewrite (Pos.compare_cont_antisym mx my Eq); reflexivity.
Qed.

Lemma le_not_gt (x y : float64) : (x <=?f y) = true -> (y <?f x) = false.
Proof.
  unfold le, lt, SFleb, SFltb. rewrite (SFcompare_swap x y).
  destruct (SFcompare x y) as [[]|]; cbn; congruence.
Qed.

Lemma nan_not_lt (y : float64) : (S754_nan <?f y) = false.
Proof. reflexivity. Qed.

(** The two thresholds are the float64 values of the constants 40 and 80
    of the source. *)
Lemma c40_is_40 : c40 = of_Z 40 /\ is_float64 c40 = true /\ scaled c40 = 40 * 2 ^ 1074.
Proof. repeat split; vm_compute; reflexivity. Qed.

Lemma c80_is_80 : c80 = of_Z 80 /\ is_float64 c80 = true /\ scaled c80 = 80 * 2 ^ 1074.
Proof. repeat split; vm_compute; reflexivity. Qed.

Lemma ge_80_not_lt_40 (t : float64) : (t >=?f c80) = true -> (t <?f c40) = false.
Proof.
  unfold ge, le, lt, SFleb, SFltb, c80, c40.
  destruct t as [s|s| |s m e]; try destruct s; cbn [SFcompare]; try congruence.
  destruct (Z.compare_spec (-46) e), (Z.compare_spec e (-47)); try lia; congruence.
Qed.

Lemma digits2_pos_bounds (m : positive) :
  2 ^ (Z.pos (digits2_pos m) - 1) <= Z.pos m < 2 ^ Z.pos (digits2_pos m).
Proof.
  induction m as [m IH|m IH|]; cbn [digits2_pos]; [| |cbn; lia].
  all: rewrite Pos2Z.inj_succ.
  all: replace (Z.succ (Z.pos (digits2_pos m)) - 1) with (Z.succ (Z.pos (digits2_pos m) - 1)) by lia.
  all: rewrite !Z.pow_succ_r by lia; lia.
Qed.

(** What being a binary64 datum says of a mantissa and its exponent. *)
Lemma bounded_inv (m : positive) (e : Z) :
  bounded prec emax m e = true ->
  -1074 <= e /\ Z.pos m < 2 ^ 53 /\ (-1074 < e -> 2 ^ 52 <= Z.pos m).
Proof.
  unfold bounded, canonical_mantissa, fexp, SpecFloat.emin, prec, emax.
  intros H. apply andb_true_iff in H as [H _]. apply Z.eqb_eq in H.
  pose proof (digits2_pos_bounds m) as [Hlo Hhi].
  assert (Hd : Z.pos (digits2_pos m) <= 53) by lia.
  split; [lia|]. split.
  - eapply Z.lt_le_trans; [exact Hhi|]. apply Z.pow_le_mono_r; lia.
  - intros He. assert (Z.pos (digits2_pos m) = 53) as Hd53 by lia.
    rewrite Hd53 in Hlo. exact Hlo.
Qed.

Lemma scaled_lt_of_exponent (m1 m2 : positive) (e1 e2 : Z) :
  bounded prec emax m1 e1 = true -> bounded prec emax m2 e2 = true ->
  e1 < e2 ->
  Z.pos m1 * 2 ^ (e1 + 1074) < Z.pos m2 * 2 ^ (e2 + 1074).
Proof.
  intros H1 H2 He.
  apply bounded_inv in H1 as (L1 & U1 & _).
  apply bounded_inv in H2 as (L2 & _ & N2).
  assert (N : 2 ^ 52 <= Z.pos m2) by (apply N2; lia).
  assert (P1 : 0 < 2 ^ (e1 + 1074)) by (apply Z.pow_pos_nonneg; lia).
  replace (e2 + 1074) with ((e1 + 1074) + (e2 - e1)) by lia.
  rewrite (Z.pow_add_r 2 (e1 + 1074) (e2 - e1)) by lia.
  assert (P2 : 2 <= 2 ^ (e2 - e1)).
  { change 2 with (2 ^ 1) at 1. apply Z.pow_le_mono_r; lia. }
  change (2 ^ 53) with (2 ^ 52 * 2) in U1.
  set (A := 2 ^ (e1 + 1074)) in *. set (B := 2 ^ (e2 - e1)) in *.
  set (K := 2 ^ 52) in *. clearbody A B K.
  apply Z.lt_le_trans with (K * 2 * A).
  - apply Z.mul_lt_mono_pos_r; assumption.
  - rewrite (Z.mul_comm A B), Z.mul_assoc. apply Z.mul_le_mono_nonneg_r; [lia|].
    transitivity (Z.pos m2 * 2); [lia|].
    apply Z.mul_le_mono_nonneg_l; lia.
Qed.

Lemma compare_cont_Eq (p q : positive) : Pos.compare_cont Eq p q = (Z.pos p ?= Z.pos q).
Proof. reflexivity. Qed.

Lemma compare_finite_pos (m1 m2 : positive) (e1 e2 : Z) :
  bounded prec emax m1 e1 = true -> bounded prec emax m2 e2 = true ->
  match e1 ?= e2 with
  | Lt => Lt
  | Gt => Gt
  | Eq => Pos.compare_cont Eq m1 m2
  end = (Z.pos m1 * 2 ^ (e1 + 1074) ?= Z.pos m2 * 2 ^ (e2 + 1074)).
Proof.
  intros H1 H2. symmetry.
  destruct (Z.compare_spec e1 e2) as [->|He|He].
  - rewrite compare_cont_Eq.
    assert (P : 0 < 2 ^ (e2 + 1074)).
    { apply Z.pow_pos_nonneg; [lia|]. apply bounded_inv in H2. lia. }
    destruct (Z.compare_spec (Z.pos m1) (Z.pos m2)) as [E|E|E].
    + rewrite E. apply Z.compare_refl.
    + apply Z.compare_lt_iff. nia.
    + apply Z.compare_gt_iff. nia.
  - apply Z.compare_lt_iff. apply scaled_lt_of_exponent; assumption.
  - apply Z.compare_gt_iff. apply scaled_lt_of_exponent; assumption.
Qed.

(** On finite binary64 data the comparison of the floats is the
    comparison of their values. *)
Lemma SFcompare_scaled (x y : float64) :
  is_float64 x = true -> is_float64 y = true ->
  is_finite x = true -> is_finite y = true ->
  SFcompare x y = Some (scaled x ?= scaled y).
Proof.
  destruct x as [sx|sx| |sx mx ex], y as [sy|sy| |sy my ey]; try discriminate.
  all: unfold is_float64; cbn [valid_binary is_finite scaled SFcompare].
  all: intros Hx Hy _ _.
  - reflexivity.
  - apply bounded_inv in Hy as (L & _ & _).
    assert (0 < 2 ^ (ey + 1074)) by (apply Z.pow_pos_nonneg; lia).
    f_equal. symmetry. destruct sy; [apply Z.compare_gt_iff | apply Z.compare_lt_iff]; nia.
  - apply bounded_inv in Hx as (L & _ & _).
    assert (0 < 2 ^ (ex + 1074)) by (apply Z.pow_pos_nonneg; lia).
    f_equal. symmetry. destruct sx; [apply Z.compare_lt_iff | apply Z.compare_gt_iff]; nia.
  - pose proof (bounded_inv _ _ Hx) as (Lx & _ & _).
    pose proof (bounded_inv _ _ Hy) as (Ly & _ & _).
    assert (0 < 2 ^ (ex + 1074)) by (apply Z.pow_pos_nonneg; lia).
    assert (0 < 2 ^ (ey + 1074)) by (apply Z.pow_pos_nonneg; lia).
    f_equal. destruct sx, sy.
    + rewrite Z.compare_opp.
      rewrite <- (compare_finite_pos my mx ey ex Hy Hx).
      rewrite (Z.compare_antisym ey ex).
      destruct (ey ?= ex); cbn [CompOpp]; try reflexivity.
      rewrite (Pos.compare_cont_antisym mx my Eq). reflexivity.
    + symmetry. apply Z.compare_lt_iff. nia.
    + symmetry. apply Z.compare_gt_iff. nia.
    + apply compare_finite_pos; assumption.
Qed.

Lemma lt_scaled (x y : float64) :
  is_float64 x = true -> is_float64 y = true ->
  is_finite x = true -> is_finite y = true ->
  (x <?f y) = (scaled x <? scaled y).
Proof.
  intros. unfold lt, SFltb, Z.ltb. rewrite SFcompare_scaled by assumption. reflexivity.
Qed.

Lemma le_scaled (x y : float64) :
  is_float64 x = true -> is_float64 y = true ->
  is_finite x = true -> is_finite y = true ->
  (x <=?f y) = (scaled x <=? scaled y).
Proof.
  intros. unfold le, SFleb, Z.leb. rewrite SFcompare_scaled by assumption.
  destruct (scaled x ?= scaled y); reflexivity.
Qed.

(** Below 40, as a float64 comparison, is below 40 as a number. *)
Lemma lt_c40_value (t : float64) :
  is_float64 t = true -> is_finite t = true ->
  (t <?f c40) = (scaled t <? 40 * 2 ^ 1074).
Proof. intros Hv Hf. exact (lt_scaled t c40 Hv eq_refl Hf eq_refl). Qed.

Lemma lt_c80_value (t : float64) :
  is_float64 t = true -> is_finite t = true ->
  (t <?f c80) = (scaled t <? 80 * 2 ^ 1074).
Proof. intros Hv Hf. exact (lt_scaled t c80 Hv eq_refl Hf eq_refl). Qed.

End Comparisons.

(** ** The comfort category *)

(** C1. For every float64 temperature [t]: below 40 the category is
    "cold", from 40 (included) to 80 (excluded) it is "moderate", from 80
    (included) on it is "hot"; exactly 40 gives "moderate" and exactly 80
    gives "hot". *)
Theorem tempratureAnalog_thresholds (t : float64) :
  ((t <?f c40) = true -> tempratureAnalog t = "cold") /\
  ((c40 <=?f t) = true -> (t <?f c80) = true -> tempratureAnalog t = "moderate") /\
  ((t >=?f c80) = true -> tempratureAnalog t = "hot") /\
  tempratureAnalog c40 = "moderate" /\
  tempratureAnalog c80 = "hot".
Proof.
  unfold tempratureAnalog. repeat split.
  - intros ->. reflexivity.
  - intros H40 H80. rewrite (le_not_gt _ _ H40), H80. reflexivity.
  - intros H80. rewrite (ge_80_not_lt_40 _ H80), (le_not_gt _ _ H80). reflexivity.
Qed.

(** The temperatures of the package's test and of the specification:
    100, 72, -1398123.3, 40, 79.999 and 80. *)
Lemma tempratureAnalog_thresholds_witness :
  tempratureAnalog (of_Z 100) = "hot" /\
  tempratureAnalog (of_Z 72) = "moderate" /\
  tempratureAnalog (of_ratio (-13981233) 10) = "cold" /\
  tempratureAnalog (of_ratio 79999 1000) = "moderate".
Proof.
  split; [|split; [|split]].
  - apply (proj1 (proj2 (proj2 (tempratureAnalog_thresholds (of_Z 100))))).
    vm_compute. reflexivity.
  - apply (proj1 (proj2 (tempratureAnalog_thresholds (of_Z 72))));
      vm_compute; reflexivity.
  - apply (proj1 (tempratureAnalog_thresholds (of_ratio (-13981233) 10))).
    vm_compute. reflexivity.
  - apply (proj1 (proj2 (tempratureAnalog_thresholds (of_ratio 79999 1000))));
      vm_compute; reflexivity.
Defined.

(** C10. The category is defined for every float64 datum and is one of
    "cold", "moderate" and "hot"; a NaN, which is below no number, is
    "hot". *)
Theorem tempratureAnalog_total (t : float64) :
  (tempratureAnalog t = "cold" \/ tempratureAnalog t = "moderate"
   \/ tempratureAnalog t = "hot") /\
  (is_nan t = true -> tempratureAnalog t = "hot").
Proof.
  split.
  - unfold tempratureAnalog.
    destruct (t <?f c40); [now left|].
    destruct (t <?f c80); [now right; left | now right; right].
  - destruct t; cbn [is_nan]; try discriminate. reflexivity.
Qed.

(** The NaN. *)
Lemma tempratureAnalog_total_witness :
  is_nan S754_nan = true /\ tempratureAnalog S754_nan = "hot".
Proof.
  split; [reflexivity|].
  apply (proj2 (tempratureAnalog_total S754_nan)). reflexivity.
Defined.

(** ** The library models *)

(** The text [Itoa] gives denotes the number it was given. *)
Lemma Itoa_reads_back (i : Z) : decimal (Itoa i) = Some i.
Proof.
  unfold decimal, Itoa. rewrite NilZero.isi.
  - cbn. f_equal. apply DecimalZ.of_to.
  - destruct i; cbn; try discriminate. intros [= H]. exact (Unsigned.to_uint_nonnil p H).
  - destruct i; cbn; try discriminate. intros [= H]. exact (Unsigned.to_uint_nonnil p H).
Qed.

(** A points document without a "forecast" member decodes, without an
    error, to a payload whose endpoint is empty. *)
Lemma unmarshal_no_forecast (members : list (string * json)) :
  Forall (fun m => names (fst m) "forecast" = false) members ->
  unmarshal_forcastGrid_returnPayload (JObject members)
    {| ForecastEndpoint := EmptyString |}
  = ({| ForecastEndpoint := EmptyString |}, None).
Proof.
  unfold unmarshal_forcastGrid_returnPayload, unmarshal_struct.
  generalize {| ForecastEndpoint := EmptyString |} as p.
  induction members as [|[k v] members IH]; intros p Hm; [reflexivity|].
  inversion Hm as [|? ? Hk Hrest]; subst. cbn in Hk. cbn [fold_left fst snd].
  rewrite Hk. cbn [fst snd first_error]. apply IH, Hrest.
Qed.

(** ** The request pipeline *)

Section Writer.

Lemma http_Error_status w msg code :
  rw_Status w = None -> rw_Status (http_Error w msg code) = Some code.
Proof. intros H. unfold http_Error, Write, WriteHeader. cbn. rewrite H. cbn. reflexivity. Qed.

Lemma http_Error_body w msg code :
  rw_Body (http_Error w msg code) = rw_Body w +:+ msg +:+ newline.
Proof. unfold http_Error, Write, WriteHeader. cbn. destruct (rw_Status w); reflexivity. Qed.

Lemma Values_Get_absent (v : gmap string (list string)) key :
  v !! key = None -> Values_Get v key = EmptyString.
Proof. unfold Values_Get. intros ->. reflexivity. Qed.

Lemma Header_Get_absent (h : gmap string (list string)) key :
  h !! key = None -> Header_Get h key = EmptyString.
Proof. unfold Header_Get. intros ->. reflexivity. Qed.

Lemma acceptedTypes_spec (accept : string) :
  is_Some (acceptedTypes !! accept) <->
  accept = "*/*" \/ accept = "text/*" \/ accept = "text/plain".
Proof.
  unfold acceptedTypes. rewrite !lookup_insert_is_Some, lookup_empty.
  split.
  - intros [ <- | [_ [ <- | [_ [ <- | [_ [x Hx] ] ] ] ] ] ]; auto. discriminate.
  - intros [ -> | [ -> | -> ] ].
    + now left.
    + right. split; [discriminate|]. now left.
    + right. split; [discriminate|]. right. split; [discriminate|]. now left.
Qed.

End Writer.

Section Pipeline.
Variable ParseFloat : string -> float64 * error.
Variable FormatF : float64 -> string.
Variable url_Parse : string -> error.

Abbreviation httpGet_points :=
  (@httpGet url_Parse _ unmarshal_forcastGrid_returnPayload).
Abbreviation httpGet_forecast :=
  (@httpGet url_Parse _ (unmarshal_forecastGet_returnPayload ParseFloat)).
Abbreviation forcastGrid := (forcastGrid FormatF url_Parse).
Abbreviation forecastGet := (forecastGet ParseFloat url_Parse).
Abbreviation validRequest := (validRequest ParseFloat).
Abbreviation ServeHTTP := (ServeHTTP ParseFloat FormatF url_Parse).
Abbreviation serve := (serve ParseFloat FormatF url_Parse).

Lemma ServeHTTP_invalid s writer request w writer' lat lon :
  validRequest writer request = (writer', (lat, lon, false)) ->
  ServeHTTP s writer request w = (Returned writer', derived w).
Proof.
  intros H. unfold Weatherserver.ServeHTTP, bind, context_WithTimeout.
  rewrite H. reflexivity.
Qed.

Lemma validRequest_not_acceptable writer request :
  Method request = "GET" -> Path (URL request) = "/weather" ->
  acceptedTypes !! Header_Get (Header request) "Accept" = None ->
  validRequest writer request =
    (http_Error writer "must accept text/plain" StatusNotAcceptable, (zero, zero, false)).
Proof.
  intros HM HP HA. unfold Weatherserver.validRequest. rewrite HM, HP, HA. reflexivity.
Qed.


(** *** What a fetch does to the world *)

Lemma upstream_calls_refl ctx w : upstream_calls ctx 0 w w.
Proof.
  exists []. rewrite app_nil_r. repeat split; auto; try lia.
Qed.

Lemma upstream_calls_trans ctx n m w1 w2 w3 :
  upstream_calls ctx n w1 w2 -> upstream_calls ctx m w2 w3 ->
  upstream_calls ctx (n + m) w1 w3.
Proof.
  intros (c1 & S1 & L1 & F1 & C1 & N1 & D1) (c2 & S2 & L2 & F2 & C2 & N2 & D2).
  exists (c1 ++ c2)%list. repeat split.
  - rewrite S2, S1, app_assoc. reflexivity.
  - rewrite length_app. lia.
  - apply Forall_app; auto.
  - congruence.
  - lia.
  - intros d Hd. specialize (D1 d Hd). specialize (D2 d Hd). lia.
Qed.

Lemma upstream_calls_weaken ctx n m w w' :
  (n <= m)%nat -> upstream_calls ctx n w w' -> upstream_calls ctx m w w'.
Proof.
  intros Hnm (c & S1 & L1 & R). exists c. repeat split; try tauto; try lia.
  all: destruct R as (? & ? & ? & ?); auto.
Qed.

Lemma client_Do_calls client request w :
  exists r, client_Do client request w = (Returned r, snd (client_Do client request w)) /\
  upstream_calls (creq_ctx request) 1 w (snd (client_Do client request w)).
Proof.
  unfold client_Do.
  destruct (ctx_deadline (creq_ctx request)) as [d|] eqn:Hd.
  - destruct (d <=? now w + Z.of_N (elapsed (RoundTrip client w request))) eqn:Hle.
    + eexists. split; [reflexivity|]. exists [request]. cbn.
      repeat split; auto; try lia. intros d' Hd'; rewrite Hd in Hd'; injection Hd' as <-; lia.
    + eexists. split; [reflexivity|]. exists [request]. cbn.
      repeat split; auto; try lia. apply Z.leb_gt in Hle. intros d' Hd'; rewrite Hd in Hd'; injection Hd' as <-; lia.
  - eexists. split; [reflexivity|]. exists [request]. cbn.
    repeat split; auto; try lia. intros d' Hd'; rewrite Hd in Hd'; discriminate.
Qed.

Lemma httpGet_calls {T} `{Unmarshaler T} ctx client url (target : T) w :
  exists r,
    httpGet url_Parse ctx client url target w
    = (Returned r, snd (httpGet url_Parse ctx client url target w)) /\
    upstream_calls ctx 1 w (snd (httpGet url_Parse ctx client url target w)).
Proof.
  unfold Weatherserver.httpGet, http_NewRequestWithContext.
  destruct (url_Parse url) as [e|].
  - eexists. split; [reflexivity|]. cbn. apply upstream_calls_weaken with 0%nat; [lia|].
    apply upstream_calls_refl.
  - unfold bind.
    match goal with |- context [client_Do ?c ?r w] =>
      destruct (client_Do_calls c r w) as ([resp err] & E & U); rewrite E in *;
      set (w' := snd (client_Do c r w)) in *; clearbody w' end.
    cbn in U.
    destruct err as [e|].
    { eexists. split; [reflexivity|]. exact U. }
    destruct (negb (StatusCode resp =? StatusOK)).
    { eexists. split; [reflexivity|]. exact U. }
    destruct (io_ReadAll (Body resp)) as [body [e|]].
    { eexists. split; [reflexivity|]. exact U. }
    destruct (json_Unmarshal body target) as [t' [e|]].
    all: eexists; split; [reflexivity|]; exact U.
Qed.

Ltac fetch H :=
  match goal with
  | |- context [@Weatherserver.httpGet ?u ?T ?I ?c ?x ?url ?t ?w] =>
      destruct (@httpGet_calls T I c x url t w) as ([? [?|]] & E & H);
      rewrite E; clear E;
      generalize dependent (snd (@Weatherserver.httpGet u T I c x url t w)); intros
  end.

Lemma forcastGrid_calls ctx client lat lon w :
  exists r w', forcastGrid ctx client lat lon w = (Returned r, w') /\
  upstream_calls ctx 1 w w'.
Proof.
  unfold Weatherserver.forcastGrid, bind. fetch U; eauto.
Qed.

Lemma forecastGet_calls ctx client endpoint w :
  exists r w', forecastGet ctx client endpoint w = (Returned r, w') /\
  upstream_calls ctx 1 w w'.
Proof.
  unfold Weatherserver.forecastGet, bind. fetch U; eauto.
  destruct (Periods f) as [|p rest]; cbn; eauto.
Qed.

Lemma ServeHTTP_calls s writer request w :
  exists ctx w1 writer' w',
    context_WithTimeout (Ctx request) (2 * Second) w = (Returned ctx, w1) /\
    ServeHTTP s writer request w = (Returned writer', w') /\
    upstream_calls ctx 2 w1 w'.
Proof.
  unfold Weatherserver.ServeHTTP, bind.
  destruct (context_WithTimeout (Ctx request) (2 * Second) w) as [[ctx|msg] w1] eqn:Hctx;
    [|discriminate Hctx].
  exists ctx, w1.
  destruct (validRequest writer request) as [writer1 [[lat lon] [|]]]; cbn [negb].
  - destruct (forcastGrid_calls ctx (Client s) lat lon w1) as ([ep [e|]] & w2 & -> & U1).
    + do 2 eexists. split; [reflexivity|]. split; [reflexivity|].
      eapply upstream_calls_weaken; [|exact U1]. lia.
    + destruct (forecastGet_calls ctx (Client s) ep w2)
        as ([[weather temprature] [e|]] & w3 & -> & U2).
      all: do 2 eexists; split; [reflexivity|]; split; [reflexivity|].
      all: exact (upstream_calls_trans _ _ _ _ _ _ U1 U2).
  - do 2 eexists. split; [reflexivity|]. split; [reflexivity|].
    eapply upstream_calls_weaken; [|apply upstream_calls_refl]. lia.
Qed.

Lemma validRequest_valid writer request writer' lat lon :
  validRequest writer request = (writer', (lat, lon, true)) ->
  writer' = writer /\
  Method request = "GET" /\ Path (URL request) = "/weather" /\
  is_Some (acceptedTypes !! Header_Get (Header request) "Accept") /\
  ParseFloat (Values_Get (Query (URL request)) "lat") = (lat, None) /\
  ParseFloat (Values_Get (Query (URL request)) "lon") = (lon, None).
Proof.
  unfold Weatherserver.validRequest.
  destruct (String.eqb_spec (Method request) MethodGet) as [HM|]; [|discriminate].
  destruct (String.eqb_spec (Path (URL request)) "/weather") as [HP|]; [|discriminate].
  cbn [negb].
  destruct (acceptedTypes !! _) as [[]|] eqn:HA; [|discriminate].
  destruct (_ || _); [discriminate|].
  destruct (ParseFloat (Values_Get (Query (URL request)) "lat")) as [la [e|]];
    [discriminate|].
  destruct (ParseFloat (Values_Get (Query (URL request)) "lon")) as [lo [e|]];
    [discriminate|].
  intros [= -> -> ->]. split; [reflexivity|]. do 2 (split; [assumption|]).
  split; [exists tt; reflexivity|]. split; reflexivity.
Qed.

(** The handler is the derivation of its context followed, for a valid
    request, by the two steps run under that context. *)
Lemma ServeHTTP_steps s writer request w ctx w1 writer' w' :
  context_WithTimeout (Ctx request) (2 * Second) w = (Returned ctx, w1) ->
  ServeHTTP s writer request w = (Returned writer', w') ->
  match validRequest writer request with
  | (writer1, (lat, lon, false)) => writer' = writer1 /\ w' = w1
  | (writer1, (lat, lon, true)) =>
      exists forecastEndpoint err w2,
        forcastGrid ctx (Client s) lat lon w1
          = (Returned (forecastEndpoint, err), w2) /\
        match err with
        | Some e =>
            writer' = http_Error writer1 ("failed to fetch weather.gov points: " +:+ e)
                        StatusInternalServerError /\
            w' = w2
        | None =>
            exists weather temprature err w3,
              forecastGet ctx (Client s) forecastEndpoint w2
                = (Returned (weather, temprature, err), w3) /\
              w' = w3 /\
              writer' =
                match err with
                | Some e =>
                    http_Error writer1
                      ("failed to fetch weather.gov forecast/temprature: " +:+ e)
                      StatusInternalServerError
                | None =>
                    let response := weather +:+ ", " +:+ temprature +:+ newline in
                    Write
                      (set_Header (set_Header writer1 "Content-Type" "text/plain")
                         "Content-Length" (Itoa (Z.of_nat (String.length response))))
                      response
                end
        end
  end.
Proof.
  intros Hctx Hs.
  unfold Weatherserver.ServeHTTP in Hs. unfold bind at 1 in Hs. rewrite Hctx in Hs.
  destruct (validRequest writer request) as [writer1 [[lat lon] [|]]]; cbn [negb] in Hs.
  - unfold bind at 1 in Hs.
    destruct (forcastGrid_calls ctx (Client s) lat lon w1)
      as ([forecastEndpoint err] & w2 & HG & _).
    rewrite HG in Hs. exists forecastEndpoint, err, w2. split; [exact HG|].
    destruct err as [e|].
    + injection Hs as <- <-. split; reflexivity.
    + unfold bind at 1 in Hs.
      destruct (forecastGet_calls ctx (Client s) forecastEndpoint w2)
        as ([[weather temprature] err] & w3 & HF & _).
      rewrite HF in Hs. exists weather, temprature, err, w3. split; [exact HF|].
      destruct err as [e|]; injection Hs as <- <-; split; reflexivity.
  - injection Hs as <- <-. split; reflexivity.
Qed.

(** C5. A request derives one context, first thing, with the deadline two
    seconds from then (or the deadline of the inbound request, if that is
    earlier), and no other context after it. For a valid request the
    handler is then [forcastGrid] run under that context and, when it
    succeeds, [forecastGet] run under the same context on the endpoint it
    returned: the answer and the world the handler ends in are theirs.
    Every request sent upstream, at most two, is sent under that context,
    so the handler is over at most two seconds after it began, whatever
    time the two exchanges take. *)
Theorem ServeHTTP_one_deadline s writer request w :
  exists ctx w1 writer' w',
    context_WithTimeout (Ctx request) (2 * Second) w = (Returned ctx, w1) /\
    ServeHTTP s writer request w = (Returned writer', w') /\
    ctx_id ctx = ctxs w /\
    ctx_deadline ctx =
      Some (match ctx_deadline (Ctx request) with
            | Some cur => Z.min cur (now w + 2 * Second)
            | None => now w + 2 * Second
            end) /\
    ctxs w' = S (ctxs w) /\
    upstream_calls ctx 2 w1 w' /\
    now w <= now w' <= now w + 2 * Second /\
    match validRequest writer request with
    | (writer1, (lat, lon, false)) => writer' = writer1 /\ w' = w1
    | (writer1, (lat, lon, true)) =>
        exists forecastEndpoint err w2,
          forcastGrid ctx (Client s) lat lon w1
            = (Returned (forecastEndpoint, err), w2) /\
          match err with
          | Some e =>
              writer' =
                http_Error writer1 ("failed to fetch weather.gov points: " +:+ e)
                  StatusInternalServerError /\
              w' = w2
          | None =>
              exists weather temprature err w3,
                forecastGet ctx (Client s) forecastEndpoint w2
                  = (Returned (weather, temprature, err), w3) /\
                w' = w3 /\
                writer' =
                  match err with
                  | Some e =>
                      http_Error writer1
                        ("failed to fetch weather.gov forecast/temprature: " +:+ e)
                        StatusInternalServerError
                  | None =>
                      let response := weather +:+ ", " +:+ temprature +:+ newline in
                      Write
                        (set_Header (set_Header writer1 "Content-Type" "text/plain")
                           "Content-Length"
                           (Itoa (Z.of_nat (String.length response))))
                        response
                  end
          end
    end.
Proof.
  destruct (ServeHTTP_calls s writer request w) as (ctx & w1 & writer' & w' & Hc & Hs & U).
  exists ctx, w1, writer', w'. split; [exact Hc|]. split; [exact Hs|].
  pose proof (ServeHTTP_steps s writer request w ctx w1 writer' w' Hc Hs) as Steps.
  unfold context_WithTimeout in Hc. injection Hc as <- <-.
  destruct U as (calls & S1 & L1 & F1 & C1 & N1 & D1). cbn in *.
  split; [reflexivity|]. split.
  { f_equal. destruct (ctx_deadline (Ctx request)) as [cur|]; [|reflexivity].
    destruct (Z.ltb_spec cur (now w + 2 * Second)); lia. }
  split; [exact C1|]. split.
  { exists calls. cbn. auto 10. }
  split; [|exact Steps].
  split; [exact N1|].
  specialize (D1 _ eq_refl).
  destruct (ctx_deadline (Ctx request)) as [cur|]; [|unfold Second in *; lia].
  destruct (Z.ltb_spec cur (now w + 2 * Second)); unfold Second in *; lia.
Qed.
Lemma serve_invalid s request w writer' lat lon :
  validRequest newResponseWriter request = (writer', (lat, lon, false)) ->
  serve s request w = (Returned writer', derived w).
Proof. apply ServeHTTP_invalid. Qed.

(** C9. The check of the Accept header is equality of strings with one of
    "*/*", "text/*" and "text/plain" ([acceptedTypes_spec]): a GET request
    to /weather whose Accept value is any other string, a value with
    parameters or a list of types included, is answered 406 not
    acceptable, and nothing is sent upstream. *)
Theorem Accept_exact_match s request w :
  Method request = "GET" -> Path (URL request) = "/weather" ->
  Header_Get (Header request) "Accept" <> "*/*" ->
  Header_Get (Header request) "Accept" <> "text/*" ->
  Header_Get (Header request) "Accept" <> "text/plain" ->
  exists writer' w',
    serve s request w = (Returned writer', w') /\
    rw_Status writer' = Some StatusNotAcceptable /\
    rw_Body writer' = "must accept text/plain" +:+ newline /\
    sent w' = sent w.
Proof.
  intros HM HP H1 H2 H3.
  assert (HA : acceptedTypes !! Header_Get (Header request) "Accept" = None).
  { apply eq_None_not_Some. rewrite acceptedTypes_spec. tauto. }
  do 2 eexists. split.
  - eapply serve_invalid. apply validRequest_not_acceptable; assumption.
  - repeat split.
Qed.

(** C2, as the code has it. A GET request to /weather that carries no
    Accept header is answered 406 not acceptable, like a request whose
    Accept header names another type: [Header.Get] gives the empty string
    for the absent header, and the empty string is not in
    [acceptedTypes]. *)
Theorem absent_Accept_rejected s request w :
  Method request = "GET" -> Path (URL request) = "/weather" ->
  Header request !! "Accept" = None ->
  exists writer' w',
    serve s request w = (Returned writer', w') /\
    rw_Status writer' = Some StatusNotAcceptable /\
    rw_Body writer' = "must accept text/plain" +:+ newline /\
    sent w' = sent w.
Proof.
  intros HM HP HA.
  do 2 eexists. split.
  - eapply serve_invalid. apply validRequest_not_acceptable; try assumption.
    rewrite (Header_Get_absent _ _ HA). reflexivity.
  - repeat split.
Qed.


Section Validation.
Variables (writer : http_ResponseWriter) (request : http_Request).
Hypothesis HM : Method request = "GET".
Hypothesis HP : Path (URL request) = "/weather".
Hypothesis HA : is_Some (acceptedTypes !! Header_Get (Header request) "Accept").

Let lat := Values_Get (Query (URL request)) "lat".
Let lon := Values_Get (Query (URL request)) "lon".

Lemma validRequest_missing :
  lat = EmptyString \/ lon = EmptyString ->
  validRequest writer request =
    (http_Error writer "query params 'lat' and 'lon' are required" StatusBadRequest,
     (zero, zero, false)).
Proof.
  intros Hmiss. destruct HA as [[] HA'].
  unfold Weatherserver.validRequest. rewrite HM, HP, HA'. fold lat lon.
  replace (String.eqb lat EmptyString || String.eqb lon EmptyString) with true;
    [reflexivity|].
  destruct Hmiss as [-> | ->]; [reflexivity|]. symmetry. apply orb_true_r.
Qed.

Lemma validRequest_bad_lat la e :
  lat <> EmptyString -> lon <> EmptyString ->
  ParseFloat lat = (la, Some e) ->
  validRequest writer request =
    (http_Error writer ("invalid 'lat' query param: " +:+ e) StatusBadRequest,
     (la, zero, false)).
Proof.
  intros Hlat Hlon He. destruct HA as [[] HA'].
  apply String.eqb_neq in Hlat, Hlon.
  unfold Weatherserver.validRequest. rewrite HM, HP, HA'. fold lat lon.
  rewrite Hlat, Hlon, He. reflexivity.
Qed.

Lemma validRequest_bad_lon la lo e :
  lat <> EmptyString -> lon <> EmptyString ->
  ParseFloat lat = (la, None) -> ParseFloat lon = (lo, Some e) ->
  validRequest writer request =
    (http_Error writer ("invalid 'lon' query param: " +:+ e) StatusBadRequest,
     (la, lo, false)).
Proof.
  intros Hlat Hlon Hok He. destruct HA as [[] HA'].
  apply String.eqb_neq in Hlat, Hlon.
  unfold Weatherserver.validRequest. rewrite HM, HP, HA'. fold lat lon.
  rewrite Hlat, Hlon, Hok, He. reflexivity.
Qed.

End Validation.

(** C7. For a GET request to /weather with an accepted Accept value: if
    [lat] or [lon] is missing ([Get] gives the empty string, as it does
    for an absent key, [Values_Get_absent]) the answer is 400 bad request;
    if both are there and one of them does not parse as a float64, the
    answer is 400 with the text of the parse error in the body (of [lat]
    if it fails, else of [lon]); in each case nothing is sent upstream. *)
Theorem bad_query_rejected s request w :
  Method request = "GET" -> Path (URL request) = "/weather" ->
  is_Some (acceptedTypes !! Header_Get (Header request) "Accept") ->
  let lat := Values_Get (Query (URL request)) "lat" in
  let lon := Values_Get (Query (URL request)) "lon" in
  (lat = EmptyString \/ lon = EmptyString ->
   exists writer' w',
     serve s request w = (Returned writer', w') /\
     rw_Status writer' = Some StatusBadRequest /\
     rw_Body writer' = "query params 'lat' and 'lon' are required" +:+ newline /\
     sent w' = sent w) /\
  (lat <> EmptyString -> lon <> EmptyString ->
   forall e, snd (ParseFloat lat) = Some e ->
   exists writer' w',
     serve s request w = (Returned writer', w') /\
     rw_Status writer' = Some StatusBadRequest /\
     rw_Body writer' = "invalid 'lat' query param: " +:+ e +:+ newline /\
     sent w' = sent w) /\
  (lat <> EmptyString -> lon <> EmptyString ->
   snd (ParseFloat lat) = None ->
   forall e, snd (ParseFloat lon) = Some e ->
   exists writer' w',
     serve s request w = (Returned writer', w') /\
     rw_Status writer' = Some StatusBadRequest /\
     rw_Body writer' = "invalid 'lon' query param: " +:+ e +:+ newline /\
     sent w' = sent w).
Proof.
  intros HM HP HA lat lon.
  split; [|split].
  - intros Hmiss. do 2 eexists. split.
    + eapply serve_invalid. apply validRequest_missing; assumption.
    + repeat split.
  - intros Hlat Hlon e He.
    destruct (ParseFloat lat) as [la ?] eqn:E. cbn in He. subst.
    do 2 eexists. split.
    + eapply serve_invalid. eapply validRequest_bad_lat; eassumption.
    + repeat split.
  - intros Hlat Hlon Hok e He.
    destruct (ParseFloat lat) as [la ?] eqn:E1. cbn in Hok. subst.
    destruct (ParseFloat lon) as [lo ?] eqn:E2. cbn in He. subst.
    do 2 eexists. split.
    + eapply serve_invalid. eapply validRequest_bad_lon; eassumption.
    + repeat split.
Qed.

(** C3, amended. [forcastGrid] fails exactly when its fetch fails, with
    the error of the fetch and an empty endpoint; when the fetch succeeds
    it returns the decoded "forecast" field as it is, with no error. *)
Theorem forcastGrid_propagates ctx client lat lon w payload err w' :
  httpGet_points ctx client
    ("https://api.weather.gov/points/" +:+ FormatF lat +:+ "," +:+ FormatF lon)
    {| ForecastEndpoint := EmptyString |} w = (Returned (payload, err), w') ->
  forcastGrid ctx client lat lon w =
    (Returned (match err with
               | Some _ => EmptyString
               | None => ForecastEndpoint payload
               end, err), w').
Proof.
  intros H. unfold Weatherserver.forcastGrid, bind. rewrite H.
  destruct err; reflexivity.
Qed.

Section Resolution.
Variables (s : Server) (request : http_Request) (w : World).
Variables (ctx : Context) (w1 : World) (lat lon : float64).
Variables (endpoint : string) (w2 : World).
Variables (payload : forecastGet_returnPayload) (w3 : World).
Hypothesis Hctx :
  context_WithTimeout (Ctx request) (2 * Second) w = (Returned ctx, w1).
Hypothesis Hvalid :
  validRequest newResponseWriter request = (newResponseWriter, (lat, lon, true)).
Hypothesis Hgrid :
  forcastGrid ctx (Client s) lat lon w1 = (Returned (endpoint, None), w2).
Hypothesis Hget :
  httpGet_forecast ctx (Client s) endpoint {| Periods := [] |} w2
  = (Returned (payload, None), w3).

Lemma serve_resolved :
  serve s request w =
    match forecastGet ctx (Client s) endpoint w2 with
    | (Returned (weather, temprature, Some e), w') =>
        (Returned (http_Error newResponseWriter
                     ("failed to fetch weather.gov forecast/temprature: " +:+ e)
                     StatusInternalServerError), w')
    | (Returned (weather, temprature, None), w') =>
        let response := weather +:+ ", " +:+ temprature +:+ newline in
        (Returned
           (Write
              (set_Header (set_Header newResponseWriter "Content-Type" "text/plain")
                 "Content-Length" (Itoa (Z.of_nat (String.length response))))
              response), w')
    | (Panicked msg, w') => (Panicked msg, w')
    end.
Proof.
  unfold Weatherserver.serve, Weatherserver.ServeHTTP.
  unfold bind at 1. rewrite Hctx, Hvalid. cbn [negb].
  unfold bind at 1. rewrite Hgrid.
  unfold bind at 1.
  destruct (forecastGet ctx (Client s) endpoint w2) as [[[[weather temprature] [e|]]|msg] w'];
    reflexivity.
Qed.

Lemma forecastGet_empty :
  Periods payload = [] ->
  forecastGet ctx (Client s) endpoint w2 =
    (Returned (EmptyString, EmptyString, Some "no periods found"), w3).
Proof.
  intros HP. unfold Weatherserver.forecastGet, bind. rewrite Hget, HP. reflexivity.
Qed.

Lemma forecastGet_first p rest :
  Periods payload = p :: rest ->
  forecastGet ctx (Client s) endpoint w2 =
    (Returned (ShortForecast p, tempratureAnalog (Temperature p), None), w3).
Proof.
  intros HP. unfold Weatherserver.forecastGet, bind. rewrite Hget, HP. reflexivity.
Qed.

End Resolution.

(** C4. When the forecast document decodes to a payload whose periods are
    empty, [forecastGet] returns the error "no periods found" (it returns:
    no element is read, nothing panics), and the pipeline answers 500 with
    that error in the body. *)
Theorem empty_periods_is_500 s request w ctx w1 lat lon endpoint w2 payload w3 :
  context_WithTimeout (Ctx request) (2 * Second) w = (Returned ctx, w1) ->
  validRequest newResponseWriter request = (newResponseWriter, (lat, lon, true)) ->
  forcastGrid ctx (Client s) lat lon w1 = (Returned (endpoint, None), w2) ->
  httpGet_forecast ctx (Client s) endpoint {| Periods := [] |} w2
    = (Returned (payload, None), w3) ->
  Periods payload = [] ->
  forecastGet ctx (Client s) endpoint w2 =
    (Returned (EmptyString, EmptyString, Some "no periods found"), w3) /\
  exists writer',
    serve s request w = (Returned writer', w3) /\
    rw_Status writer' = Some StatusInternalServerError /\
    rw_Body writer' =
      "failed to fetch weather.gov forecast/temprature: no periods found" +:+ newline.
Proof.
  intros Hctx Hvalid Hgrid Hget HP.
  pose proof (forecastGet_empty s ctx endpoint w2 payload w3 Hget HP) as E.
  split; [exact E|].
  eexists. split.
  - rewrite (serve_resolved s request w ctx w1 lat lon endpoint w2 Hctx Hvalid Hgrid), E.
    reflexivity.
  - split; reflexivity.
Qed.

(** C6. When both steps succeed and the first period has the short
    forecast [d] and the temperature [t], the answer is 200 with the body
    [d ++ ", " ++ tempratureAnalog t ++ newline], the Content-Type
    text/plain, and the Content-Length the decimal text of the length in
    bytes of that body. *)
Theorem forecast_rendered s request w ctx w1 lat lon endpoint w2 payload w3 p rest :
  context_WithTimeout (Ctx request) (2 * Second) w = (Returned ctx, w1) ->
  validRequest newResponseWriter request = (newResponseWriter, (lat, lon, true)) ->
  forcastGrid ctx (Client s) lat lon w1 = (Returned (endpoint, None), w2) ->
  httpGet_forecast ctx (Client s) endpoint {| Periods := [] |} w2
    = (Returned (payload, None), w3) ->
  Periods payload = p :: rest ->
  let d := ShortForecast p in
  let t := Temperature p in
  let body := d +:+ ", " +:+ tempratureAnalog t +:+ newline in
  exists writer',
    serve s request w = (Returned writer', w3) /\
    rw_Status writer' = Some StatusOK /\
    rw_Body writer' = body /\
    rw_Header writer' !! "Content-Type" = Some ["text/plain"] /\
    rw_Header writer' !! "Content-Length" = Some [Itoa (Z.of_nat (String.length body))] /\
    decimal (Header_Get (rw_Header writer') "Content-Length")
      = Some (Z.of_nat (String.length (rw_Body writer'))).
Proof.
  intros Hctx Hvalid Hgrid Hget HP d t body.
  pose proof (forecastGet_first s ctx endpoint w2 payload w3 Hget p rest HP) as E.
  eexists. split.
  - rewrite (serve_resolved s request w ctx w1 lat lon endpoint w2 Hctx Hvalid Hgrid), E.
    reflexivity.
  - split; [reflexivity|]. split; [reflexivity|]. split.
    + cbn. unfold Header_Set. rewrite lookup_insert_ne by discriminate.
      apply lookup_insert_eq.
    + split.
      * cbn. unfold Header_Set. apply lookup_insert_eq.
      * cbn. unfold Header_Get, Header_Set. rewrite lookup_insert_eq.
        apply Itoa_reads_back.
Qed.

End Pipeline.

(** ** The statements on concrete requests *)

Section Concrete.

Import Examples.

#[local] Abbreviation serve := (serve ParseFloat FormatF url_Parse).

(** The request of the program's own usage line, sent without an Accept
    header. *)
Lemma absent_Accept_rejected_witness :
  exists writer' w',
    serve sunny (get None KC) world0 = (Returned writer', w') /\
    rw_Status writer' = Some StatusNotAcceptable /\
    rw_Body writer' = "must accept text/plain" +:+ newline /\
    sent w' = sent world0.
Proof.
  apply (absent_Accept_rejected ParseFloat FormatF url_Parse sunny (get None KC) world0);
    reflexivity.
Defined.

(** An Accept value with a parameter, and one that lists two types. *)
Lemma Accept_exact_match_witness :
  (exists writer' w',
    serve sunny (get (Some "text/plain; charset=utf-8") KC) world0 = (Returned writer', w') /\
    rw_Status writer' = Some StatusNotAcceptable /\
    rw_Body writer' = "must accept text/plain" +:+ newline /\
    sent w' = sent world0) /\
  (exists writer' w',
    serve sunny (get (Some "text/plain, */*") KC) world0 = (Returned writer', w') /\
    rw_Status writer' = Some StatusNotAcceptable /\
    rw_Body writer' = "must accept text/plain" +:+ newline /\
    sent w' = sent world0).
Proof.
  split.
  - apply (Accept_exact_match ParseFloat FormatF url_Parse sunny
             (get (Some "text/plain; charset=utf-8") KC) world0);
      try reflexivity; vm_compute; discriminate.
  - apply (Accept_exact_match ParseFloat FormatF url_Parse sunny
             (get (Some "text/plain, */*") KC) world0);
      try reflexivity; vm_compute; discriminate.
Defined.

(** An upstream whose forecast document has an empty "periods" array. *)
Lemma empty_periods_is_500_witness :
  exists writer' w',
    serve no_periods (get (Some "*/*") KC) world0 = (Returned writer', w') /\
    rw_Status writer' = Some StatusInternalServerError /\
    rw_Body writer' =
      "failed to fetch weather.gov forecast/temprature: no periods found" +:+ newline.
Proof.
  pose proof (empty_periods_is_500 ParseFloat FormatF url_Parse no_periods
                (get (Some "*/*") KC) world0) as H.
  edestruct H as [_ [writer' Hw]]; [vm_compute; reflexivity ..|].
  exists writer'. eexists. exact Hw.
Defined.

(** A request without [lon], one whose [lat] is not a number, and one
    whose [lon] is not a number. *)
Lemma bad_query_rejected_witness :
  (exists writer' w',
     serve sunny (get (Some "*/*") [("lat", "39.0997")]) world0 = (Returned writer', w') /\
     rw_Status writer' = Some StatusBadRequest /\
     rw_Body writer' = "query params 'lat' and 'lon' are required" +:+ newline /\
     sent w' = sent world0) /\
  (exists writer' w',
     serve sunny (get (Some "*/*") [("lat", "abc"); ("lon", "-94.5786")]) world0
     = (Returned writer', w') /\
     rw_Status writer' = Some StatusBadRequest /\
     rw_Body writer' = "invalid 'lat' query param: " +:+ syntaxError "abc" +:+ newline /\
     sent w' = sent world0) /\
  (exists writer' w',
     serve sunny (get (Some "*/*") [("lat", "39.0997"); ("lon", "east")]) world0
     = (Returned writer', w') /\
     rw_Status writer' = Some StatusBadRequest /\
     rw_Body writer' = "invalid 'lon' query param: " +:+ syntaxError "east" +:+ newline /\
     sent w' = sent world0).
Proof.
  split; [|split].
  - apply (bad_query_rejected ParseFloat FormatF url_Parse sunny
             (get (Some "*/*") [("lat", "39.0997")]) world0);
      [reflexivity | reflexivity | exists tt; reflexivity | right; reflexivity].
  - apply (bad_query_rejected ParseFloat FormatF url_Parse sunny
             (get (Some "*/*") [("lat", "abc"); ("lon", "-94.5786")]) world0);
      [reflexivity | reflexivity | exists tt; reflexivity
      | vm_compute; discriminate | vm_compute; discriminate | reflexivity].
  - apply (bad_query_rejected ParseFloat FormatF url_Parse sunny
             (get (Some "*/*") [("lat", "39.0997"); ("lon", "east")]) world0);
      [reflexivity | reflexivity | exists tt; reflexivity
      | vm_compute; discriminate | vm_compute; discriminate | reflexivity | reflexivity].
Defined.

(** An upstream whose first period is 72 degrees and "Sunny". *)
Lemma forecast_rendered_witness :
  exists writer' w',
    serve sunny (get (Some "*/*") KC) world0 = (Returned writer', w') /\
    rw_Status writer' = Some StatusOK /\
    rw_Body writer' = "Sunny, moderate" +:+ newline /\
    rw_Header writer' !! "Content-Type" = Some ["text/plain"] /\
    rw_Header writer' !! "Content-Length" = Some ["16"] /\
    decimal (Header_Get (rw_Header writer') "Content-Length")
      = Some (Z.of_nat (String.length (rw_Body writer'))).
Proof.
  pose proof (forecast_rendered ParseFloat FormatF url_Parse sunny
                (get (Some "*/*") KC) world0) as H.
  edestruct H as [writer' Hw]; [vm_compute; reflexivity ..|].
  exists writer'. eexists. exact Hw.
Defined.

(** C3, as stated, fails: the upstream answers 200 with the document
    [{}]; its "forecast" field is absent, the payload decodes with an
    empty endpoint, and [forcastGrid] returns that empty endpoint with no
    error. *)
Lemma forcastGrid_empty_endpoint_no_error :
  @json_Unmarshal _ unmarshal_forcastGrid_returnPayload (Spells (JObject []))
      {| ForecastEndpoint := EmptyString |}
    = ({| ForecastEndpoint := EmptyString |}, None) /\
  fst (forcastGrid FormatF url_Parse background no_forecast KCLat KCLon world0)
    = Returned (EmptyString, None).
Proof. split; vm_compute; reflexivity. Qed.

(** A fetch that succeeds: the endpoint of the points document comes
    back as it is. *)
Lemma forcastGrid_propagates_witness :
  exists w',
    forcastGrid FormatF url_Parse background (Client sunny) KCLat KCLon world0
    = (Returned (KCWeatherEndpoint, None), w').
Proof.
  eexists.
  apply (forcastGrid_propagates FormatF url_Parse background (Client sunny) KCLat KCLon
           world0 {| ForecastEndpoint := KCWeatherEndpoint |} None).
  vm_compute. reflexivity.
Defined.

(** Two exchanges of 1.2 s each: the second one is cut at the deadline. *)
Example slow_upstream_times_out :
  exists writer' w',
    serve slow (get (Some "*/*") KC) world0 = (Returned writer', w') /\
    rw_Status writer' = Some StatusInternalServerError /\
    now w' = 2 * Second /\ length (sent w') = 2%nat.
Proof. do 2 eexists. split; [vm_compute; reflexivity|]. repeat split. Qed.

End Concrete.

(** ** The lifecycle controller *)

Section Lifecycle.

Import Main.

(** C8, as the code has it. Called when no listener is set and the mutex
    is free, [stopServer] returns with the mutex still held: it leaves
    through the early return, which does not unlock. A second
    [stopServer], or a [startServer], then blocks in [Lock]. *)
Theorem stopServer_idle_holds_mutex (g : Globals) :
  listener g = None -> listnerMutext g = false ->
  let g' := {| listener := None; listnerMutext := true; closed := closed g |} in
  stopServer g = Done tt g' /\
  stopServer g' = Blocked g' /\
  forall l, startServer l g' = Blocked g'.
Proof.
  intros HL HM g'. unfold stopServer, startServer, Lock, then_.
  rewrite HM. cbn. rewrite HL. repeat split.
Qed.

(** The state the program starts in. *)
Lemma stopServer_idle_holds_mutex_witness :
  stopServer initial = Done tt {| listener := None; listnerMutext := true; closed := [] |}.
Proof.
  apply (stopServer_idle_holds_mutex initial); reflexivity.
Defined.

(** With a listener set, [stopServer] closes it, clears the variable and
    releases the mutex. *)
Lemma stopServer_started (g : Globals) (l : nat) :
  listener g = Some l -> listnerMutext g = false ->
  stopServer g =
    Done tt {| listener := None; listnerMutext := false;
               closed := (closed g ++ [l])%list |}.
Proof.
  intros HL HM. unfold stopServer, Lock, then_. rewrite HM. cbn. rewrite HL.
  reflexivity.
Qed.

End Lifecycle.

(** * More of the code *)

(** ** The comfort category, by value *)

Section Category.

(** X14. On a finite binary64 temperature the category is decided by its
    exact value: "cold" below 40, "moderate" from 40 to below 80, "hot"
    from 80 on. *)
Theorem tempratureAnalog_by_value (t : float64) :
  is_float64 t = true -> is_finite t = true ->
  tempratureAnalog t =
    if scaled t <? 40 * 2 ^ 1074 then "cold"
    else if scaled t <? 80 * 2 ^ 1074 then "moderate"
    else "hot".
Proof.
  intros Hv Hf. unfold tempratureAnalog.
  rewrite (lt_c40_value t Hv Hf), (lt_c80_value t Hv Hf). reflexivity.
Qed.

(** Below a positive number stays below it when the left side goes down. *)
Lemma le_lt_trans_pos (x y : float64) (m : positive) (e : Z) :
  (x <=?f y) = true -> (y <?f S754_finite false m e) = true ->
  (x <?f S754_finite false m e) = true.
Proof.
  unfold le, lt, SFleb, SFltb.
  destruct x as [sx|sx| |sx mx ex], y as [sy|sy| |sy my ey];
    try destruct sx; try destruct sy; cbn [SFcompare]; try congruence.
  rewrite ?compare_cont_Eq.
  repeat match goal with
         | |- context [?a ?= ?b] => destruct (Z.compare_spec a b)
         end; intros; try congruence; lia.
Qed.

(** X15. The category never goes down when the temperature goes up: if
    [x <= y] then [y] cold makes [x] cold and [x] hot makes [y] hot. *)
Theorem tempratureAnalog_monotone (x y : float64) :
  (x <=?f y) = true ->
  (tempratureAnalog y = "cold" -> tempratureAnalog x = "cold") /\
  (tempratureAnalog x = "hot" -> tempratureAnalog y = "hot").
Proof.
  intros Hle. unfold tempratureAnalog.
  pose proof (le_lt_trans_pos x y _ _ Hle : (y <?f c40) = true -> (x <?f c40) = true) as T40.
  pose proof (le_lt_trans_pos x y _ _ Hle : (y <?f c80) = true -> (x <?f c80) = true) as T80.
  destruct (y <?f c40) eqn:Y40.
  - rewrite (T40 eq_refl). split; [reflexivity|discriminate].
  - destruct (y <?f c80) eqn:Y80.
    + rewrite (T80 eq_refl). split; [discriminate|].
      destruct (x <?f c40); discriminate.
    + split; [discriminate|reflexivity].
Qed.
End Category.

(** ** Validation, the fetch and the handler *)

Section PipelineMore.
Variable ParseFloat : string -> float64 * error.
Variable FormatF : float64 -> string.
Variable url_Parse : string -> error.

Abbreviation httpGet_points :=
  (@httpGet url_Parse _ unmarshal_forcastGrid_returnPayload).
Abbreviation httpGet_forecast :=
  (@httpGet url_Parse _ (unmarshal_forecastGet_returnPayload ParseFloat)).
Abbreviation forcastGrid := (forcastGrid FormatF url_Parse).
Abbreviation forecastGet := (forecastGet ParseFloat url_Parse).
Abbreviation validRequest := (validRequest ParseFloat).
Abbreviation ServeHTTP := (ServeHTTP ParseFloat FormatF url_Parse).
Abbreviation serve := (serve ParseFloat FormatF url_Parse).
Abbreviation serve_invalid := (serve_invalid ParseFloat FormatF url_Parse).

(** *** Validation *)

Lemma validRequest_wrong_method writer request :
  Method request <> "GET" ->
  validRequest writer request =
    (http_Error writer "only GET allowed" StatusMethodNotAllowed, (zero, zero, false)).
Proof.
  intros HM. apply String.eqb_neq in HM.
  unfold Weatherserver.validRequest, MethodGet. rewrite HM. reflexivity.
Qed.

Lemma validRequest_wrong_path writer request :
  Method request = "GET" -> Path (URL request) <> "/weather" ->
  validRequest writer request =
    (http_Error writer "only /weather allowed" StatusNotFound, (zero, zero, false)).
Proof.
  intros HM HP. apply String.eqb_neq in HP.
  unfold Weatherserver.validRequest. rewrite HM, HP. reflexivity.
Qed.

(** X1. A request whose method is not GET is answered 405 "only GET
    allowed", whatever its path, headers and query, and nothing is sent
    upstream. *)
Theorem method_not_allowed s request w :
  Method request <> "GET" ->
  exists writer' w',
    serve s request w = (Returned writer', w') /\
    rw_Status writer' = Some StatusMethodNotAllowed /\
    rw_Body writer' = "only GET allowed" +:+ newline /\
    sent w' = sent w.
Proof.
  intros HM. do 2 eexists. split.
  - eapply serve_invalid. apply validRequest_wrong_method, HM.
  - repeat split.
Qed.

(** X2. A GET request for a path other than /weather is answered 404
    "only /weather allowed", whatever its headers and query, and nothing
    is sent upstream. *)
Theorem path_not_found s request w :
  Method request = "GET" -> Path (URL request) <> "/weather" ->
  exists writer' w',
    serve s request w = (Returned writer', w') /\
    rw_Status writer' = Some StatusNotFound /\
    rw_Body writer' = "only /weather allowed" +:+ newline /\
    sent w' = sent w.
Proof.
  intros HM HP. do 2 eexists. split.
  - eapply serve_invalid. apply validRequest_wrong_path; assumption.
  - repeat split.
Qed.

(** X3. [validRequest] accepts a request exactly when it is a GET of
    /weather with an accepted Accept value and non-empty [lat] and [lon]
    that both parse; it then leaves the writer untouched and returns the
    two parsed numbers. *)
Theorem validRequest_valid_iff writer request :
  let lat := Values_Get (Query (URL request)) "lat" in
  let lon := Values_Get (Query (URL request)) "lon" in
  let accepted :=
    Method request = "GET" /\ Path (URL request) = "/weather" /\
    is_Some (acceptedTypes !! Header_Get (Header request) "Accept") /\
    lat <> EmptyString /\ lon <> EmptyString /\
    snd (ParseFloat lat) = None /\ snd (ParseFloat lon) = None in
  (snd (snd (validRequest writer request)) = true -> accepted) /\
  (accepted ->
   validRequest writer request =
     (writer, (fst (ParseFloat lat), fst (ParseFloat lon), true))).
Proof.
  intros lat lon accepted. unfold accepted. split.
  - unfold Weatherserver.validRequest. fold lat lon.
    destruct (String.eqb_spec (Method request) MethodGet) as [HM|]; [|discriminate].
    destruct (String.eqb_spec (Path (URL request)) "/weather") as [HP|]; [|discriminate].
    cbn [negb].
    destruct (acceptedTypes !! _) as [[]|] eqn:HA; [|discriminate].
    destruct (String.eqb_spec lat EmptyString) as [|Hlat]; [discriminate|].
    destruct (String.eqb_spec lon EmptyString) as [|Hlon]; [discriminate|].
    cbn [orb].
    destruct (ParseFloat lat) as [la [e|]]; [discriminate|].
    destruct (ParseFloat lon) as [lo [e|]]; [discriminate|].
    intros _. do 2 (split; [assumption|]). split; [exists tt; reflexivity|].
    repeat split; assumption.
  - intros (HM & HP & [[] HA] & Hlat & Hlon & Ela & Elo).
    apply String.eqb_neq in Hlat, Hlon.
    unfold Weatherserver.validRequest. fold lat lon. rewrite HM, HP, HA, Hlat, Hlon.
    destruct (ParseFloat lat) as [la ?]. cbn in Ela. subst.
    destruct (ParseFloat lon) as [lo ?]. cbn in Elo. subst.
    reflexivity.
Qed.

(** An invalid request is answered with one of four client errors. *)
Lemma validRequest_invalid_status request writer' lat lon :
  validRequest newResponseWriter request = (writer', (lat, lon, false)) ->
  rw_Status writer' = Some StatusBadRequest \/
  rw_Status writer' = Some StatusNotFound \/
  rw_Status writer' = Some StatusMethodNotAllowed \/
  rw_Status writer' = Some StatusNotAcceptable.
Proof.
  unfold Weatherserver.validRequest.
  destruct (negb _); [intros [= <- _ _]; auto|].
  destruct (negb _); [intros [= <- _ _]; auto|].
  destruct (acceptedTypes !! _); [|intros [= <- _ _]; auto 6].
  destruct (_ || _); [intros [= <- _ _]; auto|].
  destruct (ParseFloat _) as [la [e|]]; [intros [= <- _ _]; auto|].
  destruct (ParseFloat _) as [lo [e|]]; [intros [= <- _ _]; auto|].
  discriminate.
Qed.


(** *** The fetch *)

Lemma built_request ctx url :
  request_Header_Set
    {| creq_ctx := ctx; creq_Method := MethodGet; creq_URL := url; creq_Header := ∅ |}
    "Accept" "application/ld+json"
  = get_request ctx url.
Proof. reflexivity. Qed.

Lemma client_Do_sent client request w :
  exists r w', client_Do client request w = (Returned r, w') /\
    sent w' = (sent w ++ [request])%list /\ ctxs w' = ctxs w.
Proof.
  unfold client_Do.
  destruct (ctx_deadline (creq_ctx request)) as [d|]; [destruct (d <=? _)|];
    do 2 eexists; (split; [reflexivity|]); split; reflexivity.
Qed.

(** How a fetch goes, read from its result. *)
Lemma httpGet_cases {T} `{Unmarshaler T} ctx client url (target : T) w :
  (exists e, url_Parse url = Some e /\
     httpGet url_Parse ctx client url target w =
       (Returned (target,
          Some ("parse " +:+ dquote +:+ url +:+ dquote +:+ ": " +:+ e)), w)) \/
  (url_Parse url = None /\
   exists response err w',
     client_Do client (get_request ctx url) w = (Returned (response, err), w') /\
     httpGet url_Parse ctx client url target w =
       (Returned
          match err with
          | Some _ => (target, err)
          | None =>
              if negb (StatusCode response =? StatusOK)
              then (target,
                    Some ("unexpected status code: " +:+ Itoa (StatusCode response)))
              else
                match body_err (Body response) with
                | Some e => (target, Some ("failed to read body: " +:+ e))
                | None =>
                    match json_Unmarshal (body_data (Body response)) target with
                    | (target', Some e) =>
                        (target', Some ("failed to unmarshal body: " +:+ e))
                    | (target', None) => (target', None)
                    end
                end
          end, w')).
Proof.
  unfold Weatherserver.httpGet, http_NewRequestWithContext.
  destruct (url_Parse url) as [e|].
  - left. exists e. split; reflexivity.
  - right. split; [reflexivity|]. rewrite built_request. unfold bind.
    destruct (client_Do_sent client (get_request ctx url) w) as ([response err] & w' & E & _).
    rewrite E. exists response, err, w'. split; [reflexivity|].
    destruct err as [e|]; [reflexivity|].
    destruct (negb _); [reflexivity|].
    unfold io_ReadAll. destruct (body_err (Body response)); [reflexivity|].
    destruct (json_Unmarshal _ _) as [t' [e|]]; reflexivity.
Qed.

(** X4. A fetch whose URL does not parse fails without sending
    anything. Otherwise it sends exactly one request: a GET of the URL,
    whose only header is Accept: application/ld+json. *)
Theorem httpGet_sends_one_GET {T} `{Unmarshaler T} ctx client url (target : T) w :
  (forall e, url_Parse url = Some e ->
     exists r, httpGet url_Parse ctx client url target w = (Returned (target, Some r), w)) /\
  (url_Parse url = None ->
     exists r w', httpGet url_Parse ctx client url target w = (Returned r, w') /\
       sent w' = (sent w ++ [get_request ctx url])%list /\
       creq_Method (get_request ctx url) = "GET" /\
       Header_Get (creq_Header (get_request ctx url)) "Accept" = "application/ld+json" /\
       dom (creq_Header (get_request ctx url)) = {[ "Accept" ]}).
Proof.
  split.
  - intros e He.
    destruct (httpGet_cases ctx client url target w) as [(e' & E & R)|(E & _)];
      [|congruence].
    eexists. exact R.
  - intros Hu.
    destruct (httpGet_cases ctx client url target w)
      as [(e' & E & _)|(_ & response & err & w' & D & R)]; [congruence|].
    destruct (client_Do_sent client (get_request ctx url) w) as (r0 & w0 & D0 & S0 & _).
    rewrite D in D0. injection D0 as <- <-.
    do 2 eexists. split; [exact R|]. split; [exact S0|].
    split; [reflexivity|]. split; [reflexivity|].
    unfold get_request. cbn. apply dom_singleton_L.
Qed.

(** X5. The failures of a fetch once the request was sent: an error of
    the exchange is returned as it is; a status other than 200 gives
    "unexpected status code: " and the status, the body unread; an error
    reading the body gives "failed to read body: " and the error; a body
    that is not JSON gives "failed to unmarshal body: " and the error. In
    each case the target is as it was. *)
Theorem httpGet_failures {T} `{Unmarshaler T} ctx client url (target : T) w response err w' :
  url_Parse url = None ->
  client_Do client (get_request ctx url) w = (Returned (response, err), w') ->
  (forall e, err = Some e ->
   httpGet url_Parse ctx client url target w = (Returned (target, Some e), w')) /\
  (err = None -> StatusCode response <> 200 ->
   httpGet url_Parse ctx client url target w =
     (Returned (target,
        Some ("unexpected status code: " +:+ Itoa (StatusCode response))), w')) /\
  (err = None -> StatusCode response = 200 ->
   forall e, body_err (Body response) = Some e ->
   httpGet url_Parse ctx client url target w =
     (Returned (target, Some ("failed to read body: " +:+ e)), w')) /\
  (err = None -> StatusCode response = 200 -> body_err (Body response) = None ->
   forall e, body_data (Body response) = Malformed e ->
   httpGet url_Parse ctx client url target w =
     (Returned (target, Some ("failed to unmarshal body: " +:+ e)), w')).
Proof.
  intros Hu D.
  destruct (httpGet_cases ctx client url target w)
    as [(e' & E & _)|(_ & response0 & err0 & w0 & D0 & R)]; [congruence|].
  rewrite D in D0. injection D0 as <- <- <-. rewrite R. clear R.
  split; [|split; [|split]].
  - intros e ->. reflexivity.
  - intros -> Hs. apply Z.eqb_neq in Hs. unfold StatusOK. rewrite Hs. reflexivity.
  - intros -> Hs e He. rewrite Hs, He. reflexivity.
  - intros -> Hs Hr e He. rewrite Hs, Hr, He. reflexivity.
Qed.

(** X6. A fetch returns no error only if the URL parsed, the exchange
    gave a response without error, the status was 200, the body was read
    without error and spells a JSON value, and that value was stored into
    the target without error; the target returned is the result of that
    store. *)
Theorem httpGet_success {T} `{Unmarshaler T} ctx client url (target target' : T) w w' :
  httpGet url_Parse ctx client url target w = (Returned (target', None), w') ->
  url_Parse url = None /\
  exists response v,
    client_Do client (get_request ctx url) w = (Returned (response, None), w') /\
    StatusCode response = 200 /\
    body_err (Body response) = None /\
    body_data (Body response) = Spells v /\
    unmarshal v target = (target', None).
Proof.
  intros R.
  destruct (httpGet_cases ctx client url target w)
    as [(e' & E & R0)|(Hu & response & err & w0 & D & R0)];
    rewrite R0 in R; [discriminate|].
  split; [exact Hu|]. exists response.
  destruct err as [e|]; [discriminate|].
  destruct (Z.eqb_spec (StatusCode response) StatusOK) as [Hs|]; [|discriminate].
  cbn [negb] in R.
  destruct (body_err (Body response)) as [e|] eqn:Hr; [discriminate|].
  destruct (body_data (Body response)) as [e|v] eqn:Hb; cbn [json_Unmarshal] in R;
    [discriminate|].
  exists v. destruct (unmarshal v target) as [t' [e|]] eqn:Hd; [discriminate|].
  injection R as <- <-. repeat split; auto.
Qed.

(** A fetch that succeeds has sent its one request. *)
Lemma httpGet_ok_sent {T} `{Unmarshaler T} ctx client url (target target' : T) w w' :
  httpGet url_Parse ctx client url target w = (Returned (target', None), w') ->
  sent w' = (sent w ++ [get_request ctx url])%list.
Proof.
  intros R.
  destruct (httpGet_cases ctx client url target w)
    as [(e' & E & R0)|(Hu & response & err & w0 & D & R0)];
    rewrite R0 in R; [discriminate|].
  injection R as _ <-.
  destruct (client_Do_sent client (get_request ctx url) w) as (r0 & w1 & D0 & S0 & _).
  rewrite D in D0. injection D0 as _ <-. exact S0.
Qed.


(** *** The two steps *)

(** X7. [forecastGet] returns no error only if its fetch succeeded with
    at least one period; the forecast is then the short forecast of the
    first period and the temperature text is the category of its
    temperature, one of "cold", "moderate" and "hot". *)
Theorem forecastGet_success ctx client endpoint w forecast temprature w' :
  forecastGet ctx client endpoint w = (Returned (forecast, temprature, None), w') ->
  exists payload p rest,
    httpGet_forecast ctx client endpoint {| Periods := [] |} w
      = (Returned (payload, None), w') /\
    Periods payload = p :: rest /\
    forecast = ShortForecast p /\
    temprature = tempratureAnalog (Temperature p) /\
    (temprature = "cold" \/ temprature = "moderate" \/ temprature = "hot").
Proof.
  unfold Weatherserver.forecastGet, bind.
  destruct (httpGet_forecast ctx client endpoint {| Periods := [] |} w)
    as [[[payload [e|]]|msg] w0] eqn:E; try discriminate.
  destruct (Periods payload) as [|p rest] eqn:HP; cbn -[tempratureAnalog];
    [discriminate|].
  intros [= <- <- <-]. exists payload, p, rest.
  do 4 (split; [reflexivity || exact HP|]).
  unfold tempratureAnalog.
  destruct (Temperature p <?f c40); [now left|].
  destruct (Temperature p <?f c80); [now right; left|now right; right].
Qed.

Lemma forecastGet_cases_aux ctx client endpoint w forecast temprature w' :
  forecastGet ctx client endpoint w = (Returned (forecast, temprature, None), w') ->
  exists payload,
    httpGet_forecast ctx client endpoint {| Periods := [] |} w
      = (Returned (payload, None), w').
Proof.
  unfold Weatherserver.forecastGet, bind.
  destruct (httpGet_forecast ctx client endpoint {| Periods := [] |} w)
    as [[[payload [e|]]|msg] w0] eqn:E; try discriminate.
  destruct (Periods payload) as [|p rest] eqn:HP; cbn -[tempratureAnalog];
    [discriminate|].
  intros [= <- <- <-]. exists payload. reflexivity.
Qed.

Lemma forcastGrid_ok_sent ctx client lat lon w endpoint w' :
  forcastGrid ctx client lat lon w = (Returned (endpoint, None), w') ->
  sent w' =
    (sent w ++ [get_request ctx
                  ("https://api.weather.gov/points/" +:+ FormatF lat +:+ ","
                   +:+ FormatF lon)])%list.
Proof.
  unfold Weatherserver.forcastGrid, bind.
  match goal with |- context [Weatherserver.httpGet ?u ?c ?x ?url ?t ?w] =>
    destruct (Weatherserver.httpGet u c x url t w) as [[[payload [e|]]|msg] w0] eqn:E
  end; try discriminate.
  intros [= <- <-]. exact (httpGet_ok_sent _ _ _ _ _ _ _ E).
Qed.

Lemma forecastGet_ok_sent ctx client endpoint w r w' :
  forecastGet ctx client endpoint w = (Returned (r, None), w') ->
  sent w' = (sent w ++ [get_request ctx endpoint])%list.
Proof.
  destruct r as [forecast temprature]. intros E.
  destruct (forecastGet_cases_aux ctx client endpoint w forecast temprature w' E)
    as (payload & HG).
  exact (httpGet_ok_sent _ _ _ _ _ _ _ HG).
Qed.


(** *** The handler, case by case *)

Abbreviation fail_points e :=
  (http_Error newResponseWriter ("failed to fetch weather.gov points: " +:+ e)
     StatusInternalServerError).
Abbreviation fail_forecast e :=
  (http_Error newResponseWriter
     ("failed to fetch weather.gov forecast/temprature: " +:+ e)
     StatusInternalServerError).
Abbreviation answer weather temprature :=
  (let response := weather +:+ ", " +:+ temprature +:+ newline in
   Write
     (set_Header (set_Header newResponseWriter "Content-Type" "text/plain")
        "Content-Length" (Itoa (Z.of_nat (String.length response))))
     response).

Lemma serve_cases s request w :
  exists ctx,
    context_WithTimeout (Ctx request) (2 * Second) w = (Returned ctx, derived w) /\
    ((exists writer1 lat lon,
        validRequest newResponseWriter request = (writer1, (lat, lon, false)) /\
        serve s request w = (Returned writer1, derived w)) \/
     (exists lat lon,
        validRequest newResponseWriter request = (newResponseWriter, (lat, lon, true)) /\
        ((exists endpoint e w2,
            forcastGrid ctx (Client s) lat lon (derived w)
              = (Returned (endpoint, Some e), w2) /\
            serve s request w = (Returned (fail_points e), w2)) \/
         (exists endpoint w2,
            forcastGrid ctx (Client s) lat lon (derived w)
              = (Returned (endpoint, None), w2) /\
            ((exists weather temprature e w3,
                forecastGet ctx (Client s) endpoint w2
                  = (Returned (weather, temprature, Some e), w3) /\
                serve s request w = (Returned (fail_forecast e), w3)) \/
             (exists weather temprature w3,
                forecastGet ctx (Client s) endpoint w2
                  = (Returned (weather, temprature, None), w3) /\
                serve s request w = (Returned (answer weather temprature), w3))))))).
Proof.
  eexists. split; [reflexivity|].
  remember (serve s request w) as r eqn:Hr.
  unfold Weatherserver.serve, Weatherserver.ServeHTTP in Hr. unfold bind at 1 in Hr.
  unfold context_WithTimeout at 1 in Hr. fold (derived w) in Hr.
  destruct (validRequest newResponseWriter request) as [writer1 [[lat lon] [|]]] eqn:HV.
  - right. destruct (validRequest_valid ParseFloat _ _ _ _ _ HV) as [-> _].
    exists lat, lon. split; [reflexivity|]. cbn [negb] in Hr. unfold bind at 1 in Hr.
    match type of Hr with context [forcastGrid ?c ?cl lat lon (derived w)] =>
      destruct (forcastGrid_calls FormatF url_Parse c cl lat lon (derived w))
        as ([endpoint [e|]] & w2 & HG & _); rewrite HG in Hr
    end.
    + left. exists endpoint, e, w2. split; [exact HG|exact Hr].
    + right. exists endpoint, w2. split; [exact HG|]. unfold bind at 1 in Hr.
      match type of Hr with context [forecastGet ?c ?cl endpoint w2] =>
        destruct (forecastGet_calls ParseFloat url_Parse c cl endpoint w2)
          as ([[weather temprature] [e|]] & w3 & HF & _); rewrite HF in Hr
      end.
      * left. exists weather, temprature, e, w3. split; [exact HF|exact Hr].
      * right. exists weather, temprature, w3. split; [exact HF|exact Hr].
  - left. exists writer1, lat, lon. split; [reflexivity|exact Hr].
Qed.

(** X8. The handler returns for every request (it never panics) and the
    status it has written is 400, 404, 405, 406, 500 or 200; with one of
    the four client errors nothing was sent upstream. *)
Theorem every_request_is_answered s request w :
  exists writer' w',
    serve s request w = (Returned writer', w') /\
    (((rw_Status writer' = Some StatusBadRequest \/
       rw_Status writer' = Some StatusNotFound \/
       rw_Status writer' = Some StatusMethodNotAllowed \/
       rw_Status writer' = Some StatusNotAcceptable) /\ sent w' = sent w) \/
     rw_Status writer' = Some StatusInternalServerError \/
     rw_Status writer' = Some StatusOK).
Proof.
  destruct (serve_cases s request w) as (ctx & _ & [C|C]).
  - destruct C as (writer1 & lat & lon & HV & ->). do 2 eexists. split; [reflexivity|].
    left. split; [|reflexivity]. exact (validRequest_invalid_status _ _ _ _ HV).
  - destruct C as (lat & lon & _ & [C|C]).
    + destruct C as (endpoint & e & w2 & _ & ->). do 2 eexists. split; [reflexivity|].
      right. left. reflexivity.
    + destruct C as (endpoint & w2 & _ & [C|C]).
      * destruct C as (weather & temprature & e & w3 & _ & ->).
        do 2 eexists. split; [reflexivity|]. right. left. reflexivity.
      * destruct C as (weather & temprature & w3 & _ & ->).
        do 2 eexists. split; [reflexivity|]. right. right. reflexivity.
Qed.

(** X9. An answer 200 means the request was valid and exactly two
    requests were sent upstream, in this order: the points lookup for the
    two parsed coordinates, then a GET of the endpoint that lookup
    returned, both under the context of the handler. *)
Theorem success_took_two_calls s request w writer' w' :
  serve s request w = (Returned writer', w') ->
  rw_Status writer' = Some StatusOK ->
  exists ctx lat lon endpoint w2,
    context_WithTimeout (Ctx request) (2 * Second) w = (Returned ctx, derived w) /\
    validRequest newResponseWriter request = (newResponseWriter, (lat, lon, true)) /\
    forcastGrid ctx (Client s) lat lon (derived w) = (Returned (endpoint, None), w2) /\
    sent w' =
      (sent w ++
       [get_request ctx
          ("https://api.weather.gov/points/" +:+ FormatF lat +:+ "," +:+ FormatF lon);
        get_request ctx endpoint])%list.
Proof.
  intros HS H200.
  destruct (serve_cases s request w) as (ctx & Hctx & [C|C]).
  - destruct C as (writer1 & lat & lon & HV & E). rewrite E in HS. injection HS as <- <-.
    destruct (validRequest_invalid_status _ _ _ _ HV) as [H|[H|[H|H]]];
      rewrite H in H200; discriminate.
  - destruct C as (lat & lon & HV & [C|C]).
    + destruct C as (endpoint & e & w2 & _ & E). rewrite E in HS. injection HS as <- <-.
      discriminate.
    + destruct C as (endpoint & w2 & HG & [C|C]).
      * destruct C as (weather & temprature & e & w3 & _ & E).
        rewrite E in HS. injection HS as <- <-. discriminate.
      * destruct C as (weather & temprature & w3 & HF & E).
        rewrite E in HS. injection HS as _ <-.
        exists ctx, lat, lon, endpoint, w2. do 3 (split; [assumption|]).
        rewrite (forecastGet_ok_sent _ _ _ _ _ _ HF), (forcastGrid_ok_sent _ _ _ _ _ _ _ HG).
        rewrite <- app_assoc. reflexivity.
Qed.

(** X10. When the first step fails the answer is 500, the body is "failed
    to fetch weather.gov points: " and the error, and the second step is
    not run: the world is as the first step left it. *)
Theorem points_failure_is_500 s request w ctx w1 lat lon endpoint e w2 :
  context_WithTimeout (Ctx request) (2 * Second) w = (Returned ctx, w1) ->
  validRequest newResponseWriter request = (newResponseWriter, (lat, lon, true)) ->
  forcastGrid ctx (Client s) lat lon w1 = (Returned (endpoint, Some e), w2) ->
  exists writer',
    serve s request w = (Returned writer', w2) /\
    rw_Status writer' = Some StatusInternalServerError /\
    rw_Body writer' = "failed to fetch weather.gov points: " +:+ e +:+ newline.
Proof.
  intros Hctx Hvalid Hgrid. eexists. split.
  - unfold Weatherserver.serve, Weatherserver.ServeHTTP.
    unfold bind at 1. rewrite Hctx, Hvalid. cbn [negb].
    unfold bind at 1. rewrite Hgrid. reflexivity.
  - split; reflexivity.
Qed.

(** X11. When the second step fails, for whatever reason, the answer is
    500 and the body is "failed to fetch weather.gov forecast/temprature: "
    and the error. *)
Theorem forecast_failure_is_500
  s request w ctx w1 lat lon endpoint w2 weather temprature e w3 :
  context_WithTimeout (Ctx request) (2 * Second) w = (Returned ctx, w1) ->
  validRequest newResponseWriter request = (newResponseWriter, (lat, lon, true)) ->
  forcastGrid ctx (Client s) lat lon w1 = (Returned (endpoint, None), w2) ->
  forecastGet ctx (Client s) endpoint w2 = (Returned (weather, temprature, Some e), w3) ->
  exists writer',
    serve s request w = (Returned writer', w3) /\
    rw_Status writer' = Some StatusInternalServerError /\
    rw_Body writer' =
      "failed to fetch weather.gov forecast/temprature: " +:+ e +:+ newline.
Proof.
  intros Hctx Hvalid Hgrid Hget. eexists. split.
  - rewrite (serve_resolved ParseFloat FormatF url_Parse s request w ctx w1 lat lon
               endpoint w2 Hctx Hvalid Hgrid), Hget. reflexivity.
  - split; reflexivity.
Qed.

(** *** Decoding a forecast document *)

(** Members that do not name "temperature" leave the temperature of a
    period as it is. *)
Lemma period_keeps_temperature (members : list (string * json)) (q : period) :
  Forall (fun m => names (fst m) "temperature" = false) members ->
  Temperature (fst (unmarshal_period ParseFloat (JObject members) q)) = Temperature q.
Proof.
  intros Hm. unfold unmarshal_period, unmarshal_struct.
  match goal with |- context [fold_left ?f members ?a] =>
    set (F := f); change (Temperature q) with (Temperature (fst a));
    generalize a
  end.
  induction Hm as [|[k v] members Hk Hm IH]; intros acc; [reflexivity|].
  change (fold_left F ((k, v) :: members) acc)
    with (fold_left F members (F acc (k, v))).
  rewrite IH. unfold F. cbn [fst snd] in *. rewrite Hk.
  destruct (names k "shortForecast"); reflexivity.
Qed.

(** The first element of a decoded array is the decoding of its first
    element into a fresh value. *)
Lemma unmarshal_slice_head {T} (goType : string) (z : T)
  (elem : json -> T -> T * error) (e : json) (rest : list json) (old : list T) :
  exists tl,
    fst (unmarshal_slice goType z elem (JArray (e :: rest)) old) = fst (elem e z) :: tl.
Proof.
  unfold unmarshal_slice. cbn [fold_left fst snd app].
  match goal with |- context [fold_left ?f rest ?a] =>
    set (F := f);
    assert (Ha : exists tl, fst a = fst (elem e z) :: tl) by (exists []; reflexivity);
    revert Ha; generalize a
  end.
  induction rest as [|x rest IH]; intros acc Hacc; [exact Hacc|].
  change (fold_left F (x :: rest) acc) with (fold_left F rest (F acc x)).
  apply IH. destruct Hacc as [tl Htl]. unfold F. cbn [fst].
  rewrite Htl. eexists. reflexivity.
Qed.

(** The periods a forecast document decodes to are those of its last
    member that names "periods". *)
Lemma unmarshal_periods_member (pre post : list (string * json)) (k : string)
  (v : json) (init : forecastGet_returnPayload) :
  names k "periods" = true ->
  Forall (fun m => names (fst m) "periods" = false) post ->
  Periods (fst (unmarshal_forecastGet_returnPayload ParseFloat
                  (JObject (pre ++ (k, v) :: post)) init))
  = fst (unmarshal_slice "[]struct"
           {| Temperature := zero; ShortForecast := EmptyString |}
           (unmarshal_period ParseFloat) v
           (Periods (fst (unmarshal_forecastGet_returnPayload ParseFloat
                            (JObject pre) init)))).
Proof.
  intros Hk Hpost. unfold unmarshal_forecastGet_returnPayload, unmarshal_struct.
  rewrite fold_left_app.
  match goal with |- context [fold_left ?f pre ?a] =>
    set (F := f); generalize (fold_left F pre a)
  end.
  intros acc.
  change (fold_left F ((k, v) :: post) acc) with (fold_left F post (F acc (k, v))).
  assert (E : Periods (fst (F acc (k, v)))
              = fst (unmarshal_slice "[]struct"
                       {| Temperature := zero; ShortForecast := EmptyString |}
                       (unmarshal_period ParseFloat) v (Periods (fst acc)))).
  { unfold F. cbn [fst snd]. rewrite Hk. reflexivity. }
  rewrite <- E. generalize (F acc (k, v)). clear E.
  induction Hpost as [|[k' v'] post Hk' Hpost IH]; intros a; [reflexivity|].
  change (fold_left F ((k', v') :: post) a) with (fold_left F post (F a (k', v'))).
  rewrite IH. unfold F. cbn [fst snd] in *. rewrite Hk'. reflexivity.
Qed.


(** X13. The second exchange only has what the first step left of the two
    seconds: if, after a first step that succeeded, the second exchange
    would end two seconds or more after the handler began, the answer is
    500 with the context's deadline error, the handler is over within the
    two seconds, and the one request of the second step was sent. *)
Theorem second_call_has_what_is_left
  s request w ctx w1 lat lon endpoint w2 :
  context_WithTimeout (Ctx request) (2 * Second) w = (Returned ctx, w1) ->
  validRequest newResponseWriter request = (newResponseWriter, (lat, lon, true)) ->
  forcastGrid ctx (Client s) lat lon w1 = (Returned (endpoint, None), w2) ->
  url_Parse endpoint = None ->
  now w + 2 * Second
    <= now w2 + Z.of_N (elapsed (RoundTrip (Client s) w2 (get_request ctx endpoint))) ->
  exists writer' w',
    serve s request w = (Returned writer', w') /\
    rw_Status writer' = Some StatusInternalServerError /\
    rw_Body writer' =
      "failed to fetch weather.gov forecast/temprature: "
      +:+ deadline_exceeded (get_request ctx endpoint) +:+ newline /\
    now w' <= now w + 2 * Second /\
    sent w' = (sent w2 ++ [get_request ctx endpoint])%list.
Proof.
  intros Hctx Hvalid Hgrid Hu Hslow.
  assert (Hd : exists d, ctx_deadline ctx = Some d /\ d <= now w + 2 * Second /\ now w1 = now w).
  { unfold context_WithTimeout in Hctx. injection Hctx as <- <-. cbn.
    eexists. split; [reflexivity|]. split; [|reflexivity].
    destruct (ctx_deadline (Ctx request)) as [cur|]; [|lia].
    destruct (Z.ltb_spec cur (now w + 2 * Second)); lia. }
  destruct Hd as (d & Hd & Hle & Hw1).
  assert (Hnow : now w2 <= Z.max (now w1) d).
  { destruct (forcastGrid_calls FormatF url_Parse ctx (Client s) lat lon w1)
      as (r & w2' & E & U). rewrite Hgrid in E. injection E as _ <-.
    destruct U as (_ & _ & _ & _ & _ & _ & D). exact (D d Hd). }
  assert (HF : exists w3,
    forecastGet ctx (Client s) endpoint w2
    = (Returned (EmptyString, EmptyString,
                 Some (deadline_exceeded (get_request ctx endpoint))), w3) /\
    now w3 = Z.max (now w2) d /\
    sent w3 = (sent w2 ++ [get_request ctx endpoint])%list).
  { unfold Weatherserver.forecastGet, Weatherserver.httpGet, http_NewRequestWithContext.
    rewrite Hu. unfold bind. change (request_Header_Set _ _ _) with (get_request ctx endpoint).
    unfold client_Do. change (creq_ctx (get_request ctx endpoint)) with ctx. rewrite Hd.
    assert (Hb : (d <=? now w2 + Z.of_N (elapsed (RoundTrip (Client s) w2
                                                    (get_request ctx endpoint)))) = true)
      by (apply Z.leb_le; lia).
    rewrite Hb.
    eexists. split; [reflexivity|]. split; reflexivity. }
  destruct HF as (w3 & HF & Hn3 & Hs3).
  exists (http_Error newResponseWriter
            ("failed to fetch weather.gov forecast/temprature: "
             +:+ deadline_exceeded (get_request ctx endpoint))
            StatusInternalServerError), w3.
  split.
  - rewrite (serve_resolved ParseFloat FormatF url_Parse s request w ctx w1 lat lon
               endpoint w2 Hctx Hvalid Hgrid), HF. reflexivity.
  - split; [reflexivity|]. split; [reflexivity|].
    split; [unfold Second in *; lia|exact Hs3].
Qed.

End PipelineMore.

(** ** The lifecycle controller and the signals *)

Section LifecycleMore.

Import Main.

(** X16. When [net.Listen] fails, [startServer] returns the error with
    the mutex still held (the return does not unlock), so every later
    [startServer] or [stopServer] blocks. *)
Theorem startServer_listen_error_holds_mutex (g : Globals) (err : string) :
  listener g = None -> listnerMutext g = false ->
  let g' := {| listener := None; listnerMutext := true; closed := closed g |} in
  startServer (inr err) g = Done (Some err) g' /\
  (forall l, startServer l g' = Blocked g') /\
  stopServer g' = Blocked g'.
Proof.
  intros HL HM g'. unfold startServer, stopServer, Lock, then_. rewrite HM. cbn.
  rewrite HL. repeat split.
Qed.

(** X17. Neither [stopServer] nor [startServer] ever unlocks a mutex that
    is not held: no run ends in the runtime's fatal error. *)
Theorem lifecycle_never_fatal (g : Globals) (net_Listen : nat + string) :
  (forall msg g', stopServer g <> Fatal msg g') /\
  (forall msg g', startServer net_Listen g <> Fatal msg g').
Proof.
  unfold stopServer, startServer, Lock, then_, Unlock.
  split; intros msg g'.
  - destruct (listnerMutext g); [discriminate|]. cbn.
    destruct (listener g); discriminate.
  - destruct (listnerMutext g); [discriminate|]. cbn.
    destruct (listener g); [discriminate|]. destruct net_Listen; discriminate.
Qed.

(** X18. Once [stopServer] has stopped a started server, the return of
    that [startServer] panics: its deferred [listener.Close()] reads the
    package variable, which [stopServer] has set to nil. If another
    [startServer] has set a new listener by then, the deferred call
    closes that one, the listener of the second server, and the variable
    still holds it. *)
Theorem deferred_Close_after_stop (g : Globals) (l1 l2 : nat) (err : string)
  (isErrClosed : bool) :
  listener g = None -> listnerMutext g = false ->
  let g1 := {| listener := Some l1; listnerMutext := false; closed := closed g |} in
  let g2 := {| listener := None; listnerMutext := false;
               closed := (closed g ++ [l1])%list |} in
  let g3 := {| listener := Some l2; listnerMutext := false;
               closed := (closed g ++ [l1])%list |} in
  startServer (inl l1) g = Done None g1 /\
  stopServer g1 = Done tt g2 /\
  startServer_return err isErrClosed g2
    = (Panicked "runtime error: invalid memory address or nil pointer dereference",
       g2) /\
  startServer (inl l2) g2 = Done None g3 /\
  startServer_return err isErrClosed g3
    = (Returned (if isErrClosed then None else Some err),
       {| listener := Some l2; listnerMutext := false;
          closed := ((closed g ++ [l1]) ++ [l2])%list |}).
Proof.
  intros HL HM g1 g2 g3. unfold startServer, stopServer, Lock, then_.
  rewrite HM. cbn. rewrite HL. repeat split.
Qed.

(** X19. While a server is started a second [startServer] returns "server
    already started" and changes nothing, the mutex is free again, and
    [stopServer] still closes the listener of the first. *)
Theorem second_start_is_refused (g : Globals) (l : nat) (net_Listen : nat + string) :
  listener g = None -> listnerMutext g = false ->
  let g1 := {| listener := Some l; listnerMutext := false; closed := closed g |} in
  startServer (inl l) g = Done None g1 /\
  startServer net_Listen g1 = Done (Some "server already started") g1 /\
  stopServer g1 =
    Done tt {| listener := None; listnerMutext := false;
               closed := (closed g ++ [l])%list |}.
Proof.
  intros HL HM g1. unfold startServer, stopServer, Lock, then_.
  rewrite HM. cbn. rewrite HL. repeat split.
Qed.

(** [signals] passes over the signals that do not end it. *)
Lemma signals_skip (name : Signal -> string) (before rest : list Signal) (g : Globals) :
  Forall (fun x => x <> SIGTERM /\ x <> SIGINT /\ x <> SIGQUIT /\ x <> SIGHUP
                   /\ x <> SIGKILL) before ->
  signals name (before ++ rest) g = signals name rest g.
Proof.
  intros Hb. induction Hb as [|x before (H1 & H2 & H3 & H4 & H5) Hb IH]; [reflexivity|].
  cbn [app signals].
  apply Z.eqb_neq in H1, H2, H3, H4, H5. rewrite H1, H2, H3, H4, H5. exact IH.
Qed.

Lemma signals_takes (name : Signal -> string) (s : Signal) (after : list Signal)
  (g : Globals) :
  s = SIGTERM \/ s = SIGINT \/ s = SIGQUIT \/ s = SIGHUP \/ s = SIGKILL ->
  signals name (s :: after) g =
    Handled ("got signal:  " +:+ name s +:+ newline) after (stopServer g).
Proof.
  intros Hs. cbn [signals].
  replace ((s =? SIGTERM) || (s =? SIGINT) || (s =? SIGQUIT) || (s =? SIGHUP)
           || (s =? SIGKILL)) with true; [reflexivity|].
  symmetry. destruct Hs as [ -> | [ -> | [ -> | [ -> | -> ] ] ] ]; reflexivity.
Qed.

(** X20. [signals] reads past every signal that is not SIGTERM, SIGINT,
    SIGQUIT, SIGHUP or SIGKILL, calling nothing; at the first that is, it
    prints one line, calls [stopServer] once and returns, leaving the
    later signals unread. With no such signal it keeps waiting. *)
Theorem signals_stops_at_first (name : Signal -> string)
  (before : list Signal) (s : Signal) (after : list Signal) (g : Globals) :
  Forall (fun x => x <> SIGTERM /\ x <> SIGINT /\ x <> SIGQUIT /\ x <> SIGHUP
                   /\ x <> SIGKILL) before ->
  s = SIGTERM \/ s = SIGINT \/ s = SIGQUIT \/ s = SIGHUP \/ s = SIGKILL ->
  signals name (before ++ s :: after) g =
    Handled ("got signal:  " +:+ name s +:+ newline) after (stopServer g) /\
  signals name before g = Waiting g.
Proof.
  intros Hb Hs. split.
  - rewrite (signals_skip name before (s :: after) g Hb). apply signals_takes, Hs.
  - rewrite <- (app_nil_r before). apply (signals_skip name before [] g Hb).
Qed.

(** X21. A signal that ends [signals] before a listener is set leaves the
    mutex held by [stopServer], and the [startServer] that follows blocks
    for ever. *)
Theorem signal_before_listen_blocks_start (name : Signal -> string)
  (before : list Signal) (s : Signal) (after : list Signal) (g : Globals)
  (net_Listen : nat + string) :
  listener g = None -> listnerMutext g = false ->
  Forall (fun x => x <> SIGTERM /\ x <> SIGINT /\ x <> SIGQUIT /\ x <> SIGHUP
                   /\ x <> SIGKILL) before ->
  s = SIGTERM \/ s = SIGINT \/ s = SIGQUIT \/ s = SIGHUP \/ s = SIGKILL ->
  let g' := {| listener := None; listnerMutext := true; closed := closed g |} in
  signals name (before ++ s :: after) g =
    Handled ("got signal:  " +:+ name s +:+ newline) after (Done tt g') /\
  startServer net_Listen g' = Blocked g'.
Proof.
  intros HL HM Hb Hs g'. split.
  - rewrite (signals_skip name before (s :: after) g Hb), (signals_takes name s after g Hs).
    f_equal. unfold stopServer, Lock, then_. rewrite HM. cbn. rewrite HL. reflexivity.
  - reflexivity.
Qed.

(** X22. A signal that ends [signals] while a listener is set closes that
    listener, clears the variable and leaves the mutex free. *)
Theorem signal_stops_the_server (name : Signal -> string)
  (before : list Signal) (s : Signal) (after : list Signal) (g : Globals) (l : nat) :
  listener g = Some l -> listnerMutext g = false ->
  Forall (fun x => x <> SIGTERM /\ x <> SIGINT /\ x <> SIGQUIT /\ x <> SIGHUP
                   /\ x <> SIGKILL) before ->
  s = SIGTERM \/ s = SIGINT \/ s = SIGQUIT \/ s = SIGHUP \/ s = SIGKILL ->
  signals name (before ++ s :: after) g =
    Handled ("got signal:  " +:+ name s +:+ newline) after
      (Done tt {| listener := None; listnerMutext := false;
                  closed := (closed g ++ [l])%list |}).
Proof.
  intros HL HM Hb Hs.
  rewrite (signals_skip name before (s :: after) g Hb), (signals_takes name s after g Hs).
  f_equal. unfold stopServer, Lock, then_. rewrite HM. cbn. rewrite HL. reflexivity.
Qed.
End LifecycleMore.

(** ** These statements on concrete inputs *)

Section ConcreteMore.

Import Examples.

#[local] Abbreviation serve := (serve ParseFloat FormatF url_Parse).
#[local] Abbreviation forcastGrid := (forcastGrid FormatF url_Parse).
#[local] Abbreviation forecastGet := (forecastGet ParseFloat url_Parse).

(** The handler's context for a request that begins in [world0]. *)
#[local] Abbreviation ctx1 := {| ctx_id := 1; ctx_deadline := Some (2 * Second) |}.

Lemma tempratureAnalog_by_value_witness :
  tempratureAnalog (of_ratio 79999 1000) = "moderate".
Proof.
  rewrite (tempratureAnalog_by_value (of_ratio 79999 1000)); vm_compute; reflexivity.
Defined.

Lemma tempratureAnalog_monotone_witness :
  tempratureAnalog (of_Z 30) = "cold" /\ tempratureAnalog (of_Z 100) = "hot".
Proof.
  split.
  - apply (proj1 (tempratureAnalog_monotone (of_Z 30) (of_Z 35) eq_refl)).
    vm_compute. reflexivity.
  - apply (proj2 (tempratureAnalog_monotone (of_Z 90) (of_Z 100) eq_refl)).
    vm_compute. reflexivity.
Defined.

Lemma method_not_allowed_witness :
  exists writer' w',
    serve sunny (request "POST" "/weather") world0 = (Returned writer', w') /\
    rw_Status writer' = Some StatusMethodNotAllowed /\
    rw_Body writer' = "only GET allowed" +:+ newline /\
    sent w' = sent world0.
Proof.
  apply (method_not_allowed ParseFloat FormatF url_Parse sunny
           (request "POST" "/weather") world0).
  vm_compute. discriminate.
Defined.

Lemma path_not_found_witness :
  exists writer' w',
    serve sunny (request "GET" "/") world0 = (Returned writer', w') /\
    rw_Status writer' = Some StatusNotFound /\
    rw_Body writer' = "only /weather allowed" +:+ newline /\
    sent w' = sent world0.
Proof.
  apply (path_not_found ParseFloat FormatF url_Parse sunny (request "GET" "/") world0);
    [reflexivity | vm_compute; discriminate].
Defined.

Lemma validRequest_valid_iff_witness :
  validRequest ParseFloat newResponseWriter (get (Some "text/plain") KC)
  = (newResponseWriter, (KCLat, KCLon, true)).
Proof.
  apply (validRequest_valid_iff ParseFloat newResponseWriter (get (Some "text/plain") KC)).
  repeat split; try reflexivity; try (vm_compute; discriminate).
  exists tt. reflexivity.
Defined.

Lemma httpGet_sends_one_GET_witness :
  exists r w',
    @httpGet url_Parse _ unmarshal_forcastGrid_returnPayload
      background (Client sunny) KCPoints {| ForecastEndpoint := EmptyString |} world0
    = (Returned r, w') /\
    sent w' = [get_request background KCPoints].
Proof.
  destruct (proj2 (@httpGet_sends_one_GET url_Parse _ unmarshal_forcastGrid_returnPayload
                     background (Client sunny) KCPoints
                     {| ForecastEndpoint := EmptyString |} world0) eq_refl)
    as (r & w' & E & S & _).
  exists r, w'. split; [exact E | exact S].
Defined.

Lemma httpGet_failures_witness :
  exists w',
    @httpGet url_Parse _ unmarshal_forcastGrid_returnPayload
      background (status 503) KCPoints {| ForecastEndpoint := EmptyString |} world0
    = (Returned ({| ForecastEndpoint := EmptyString |},
                 Some "unexpected status code: 503"), w').
Proof.
  eexists.
  apply (proj1 (proj2 (@httpGet_failures url_Parse _ unmarshal_forcastGrid_returnPayload
                  background (status 503) KCPoints {| ForecastEndpoint := EmptyString |}
                  world0 _ None _ eq_refl eq_refl)));
    [reflexivity | vm_compute; discriminate].
Defined.

Lemma httpGet_success_witness :
  exists response,
    fst (client_Do (Client sunny) (get_request background KCPoints) world0)
      = Returned (response, None) /\
    StatusCode response = 200.
Proof.
  destruct (@httpGet_success url_Parse _ unmarshal_forcastGrid_returnPayload
              background (Client sunny) KCPoints {| ForecastEndpoint := EmptyString |}
              {| ForecastEndpoint := KCWeatherEndpoint |} world0 _ eq_refl)
    as (_ & response & v & D & S & _).
  exists response. rewrite D. split; [reflexivity | exact S].
Defined.

Lemma forecastGet_success_witness :
  exists p rest,
    Periods (fst (unmarshal_forecastGet_returnPayload ParseFloat sunny_reply
                    {| Periods := [] |})) = p :: rest /\
    ShortForecast p = "Sunny" /\ tempratureAnalog (Temperature p) = "moderate".
Proof.
  destruct (forecastGet_success ParseFloat url_Parse background (Client sunny)
              KCWeatherEndpoint world0 "Sunny" "moderate" _ eq_refl)
    as (payload & p & rest & G & HP & E1 & E2 & _).
  exists p, rest. vm_compute in G. injection G as <-.
  split; [exact HP|]. split; symmetry; assumption.
Defined.

Lemma success_took_two_calls_witness :
  exists w',
    snd (serve sunny (get (Some "*/*") KC) world0) = w' /\
    sent w' = [get_request ctx1 KCPoints; get_request ctx1 KCWeatherEndpoint].
Proof.
  destruct (success_took_two_calls ParseFloat FormatF url_Parse sunny
              (get (Some "*/*") KC) world0 _ _ eq_refl eq_refl)
    as (ctx & lat & lon & endpoint & w2 & Hc & Hv & Hg & Hs).
  eexists. split; [reflexivity|].
  vm_compute in Hc. injection Hc as <-.
  vm_compute in Hv. injection Hv as <- <-.
  vm_compute in Hg. injection Hg as <- _.
  exact Hs.
Defined.

Lemma points_failure_is_500_witness :
  exists writer' w',
    serve {| Client := status 503 |} (get (Some "*/*") KC) world0
      = (Returned writer', w') /\
    rw_Status writer' = Some StatusInternalServerError /\
    rw_Body writer' =
      "failed to fetch weather.gov points: unexpected status code: 503" +:+ newline.
Proof.
  pose proof (points_failure_is_500 ParseFloat FormatF url_Parse {| Client := status 503 |}
                (get (Some "*/*") KC) world0) as H.
  edestruct H as [writer' Hw]; [vm_compute; reflexivity ..|].
  exists writer'. eexists. exact Hw.
Defined.

Lemma forecast_failure_is_500_witness :
  exists writer' w',
    serve slow (get (Some "*/*") KC) world0 = (Returned writer', w') /\
    rw_Status writer' = Some StatusInternalServerError /\
    rw_Body writer' =
      "failed to fetch weather.gov forecast/temprature: "
      +:+ deadline_exceeded (get_request ctx1 KCWeatherEndpoint) +:+ newline.
Proof.
  pose proof (forecast_failure_is_500 ParseFloat FormatF url_Parse slow
                (get (Some "*/*") KC) world0) as H.
  edestruct H as [writer' Hw]; [vm_compute; reflexivity ..|].
  exists writer'. eexists. exact Hw.
Defined.


Lemma second_call_has_what_is_left_witness :
  exists writer' w',
    serve slow (get (Some "*/*") KC) world0 = (Returned writer', w') /\
    rw_Status writer' = Some StatusInternalServerError /\
    now w' <= 2 * Second.
Proof.
  pose proof (second_call_has_what_is_left ParseFloat FormatF url_Parse slow
                (get (Some "*/*") KC) world0) as H.
  edestruct H as (writer' & w' & E & S & _ & N & _);
    [vm_compute; reflexivity .. | reflexivity | vm_compute; discriminate |].
  exists writer', w'. split; [exact E|]. split; [exact S | exact N].
Defined.


Import Main.

Lemma startServer_listen_error_holds_mutex_witness :
  startServer (inr "listen tcp 127.0.0.1:8080: bind: address already in use") initial
  = Done (Some "listen tcp 127.0.0.1:8080: bind: address already in use")
      {| listener := None; listnerMutext := true; closed := [] |}.
Proof.
  apply (startServer_listen_error_holds_mutex initial); reflexivity.
Defined.

Lemma deferred_Close_after_stop_witness :
  startServer_return "accept tcp 127.0.0.1:8080: use of closed network connection" true
    {| listener := None; listnerMutext := false; closed := [3%nat] |}
  = (Panicked "runtime error: invalid memory address or nil pointer dereference",
     {| listener := None; listnerMutext := false; closed := [3%nat] |}).
Proof.
  apply (deferred_Close_after_stop initial 3 4
           "accept tcp 127.0.0.1:8080: use of closed network connection" true);
    reflexivity.
Defined.

Lemma second_start_is_refused_witness :
  startServer (inl 4%nat)
    {| listener := Some 3%nat; listnerMutext := false; closed := [] |}
  = Done (Some "server already started")
      {| listener := Some 3%nat; listnerMutext := false; closed := [] |}.
Proof.
  apply (second_start_is_refused initial 3 (inl 4%nat)); reflexivity.
Defined.

(** Two window changes, an interrupt, then a termination request. *)
Lemma signals_stops_at_first_witness :
  signals signal_name [28; 28; SIGINT; SIGTERM] initial
  = Handled ("got signal:  interrupt" +:+ newline) [SIGTERM] (stopServer initial).
Proof.
  apply (signals_stops_at_first signal_name [28; 28] SIGINT [SIGTERM] initial).
  - repeat constructor; discriminate.
  - right. left. reflexivity.
Defined.

Lemma signal_before_listen_blocks_start_witness :
  signals signal_name [SIGTERM] initial
  = Handled ("got signal:  terminated" +:+ newline) []
      (Done tt {| listener := None; listnerMutext := true; closed := [] |}) /\
  startServer (inl 3%nat) {| listener := None; listnerMutext := true; closed := [] |}
  = Blocked {| listener := None; listnerMutext := true; closed := [] |}.
Proof.
  apply (signal_before_listen_blocks_start signal_name [] SIGTERM [] initial (inl 3%nat));
    [reflexivity | reflexivity | constructor | left; reflexivity].
Defined.

Lemma signal_stops_the_server_witness :
  signals signal_name [28; SIGHUP]
    {| listener := Some 3%nat; listnerMutext := false; closed := [] |}
  = Handled ("got signal:  hangup" +:+ newline) []
      (Done tt {| listener := None; listnerMutext := false; closed := [3%nat] |}).
Proof.
  apply (signal_stops_the_server signal_name [28] SIGHUP []
           {| listener := Some 3%nat; listnerMutext := false; closed := [] |} 3);
    [reflexivity | reflexivity | repeat constructor; discriminate
    | right; right; right; left; reflexivity].
Defined.

End ConcreteMore.
